(** * Bamocar CAN bench sketches: register codec, torque scalers, step sequencer

    A shallow embedding of the firmware sketches of the CAN-Testing
    repository.  Every sketch is a module named after the board and the role
    of the sketch; functions keep the names they have in the C++ source.

    Conventions.
    - C integers are [Z] with the conversions written out ([to_uint8],
      [to_uint16], [to_int16], [to_int32]).
    - [float] is IEEE-754 binary32, computed with the parametric operations
      of [SpecFloat] at precision 24 and maximal exponent 128.
    - A function that talks to the outside world returns the list of events
      it produces, in program order: frames handed to the CAN controller,
      log records, serial text and blocking delays. *)

From Stdlib Require Import ZArith List Bool String Lia SpecFloat.
Import ListNotations.
Local Open Scope string_scope.
Local Open Scope list_scope.
Local Open Scope Z_scope.

(** ** Fixed-width integers

    Conversions to the unsigned types are modular.  Conversions to the
    signed types, and signed arithmetic that leaves the range, wrap in two's
    complement as they do on the ARM targets of the sketches. *)

Definition to_uint8 (z : Z) : Z := z mod 256.
Definition to_uint16 (z : Z) : Z := z mod 65536.
Definition to_int16 (z : Z) : Z := (z + 32768) mod 65536 - 32768.
Definition to_int32 (z : Z) : Z := (z + 2147483648) mod 4294967296 - 2147483648.
Definition to_uint32 (z : Z) : Z := z mod 4294967296.

(** Arduino's [abs] macro: [((x)>0?(x):-(x))]. *)
Definition abs (x : Z) : Z := if 0 <? x then x else - x.

(** ** binary32 arithmetic *)

Module F32.

Definition prec : Z := 24.
Definition emax : Z := 128.

Definition float := spec_float.

Definition mul : float -> float -> float := SFmul prec emax.
Definition div : float -> float -> float := SFdiv prec emax.
Definition ltb : float -> float -> bool := SFltb.

(** Conversion of an integer to [float] (round to nearest even). *)
Definition of_Z (z : Z) : float := binary_normalize prec emax z 0 false.

(** Conversion of a [float] to an integer type truncates toward zero.  The
    conversion of an infinity or a NaN is undefined in C++; here it is 0.
    The callers narrow the result with [to_int16] or [to_int32]. *)
Definition to_Z (x : float) : Z :=
  match x with
  | S754_finite s m e =>
      let a := if 0 <=? e then Zpos m * 2 ^ e else Zpos m / 2 ^ (- e) in
      if s then - a else a
  | _ => 0
  end.

(** The exact rational value of a finite float, as a fraction
    [numerator / denominator]. *)
Definition num (x : float) : Z :=
  match x with
  | S754_finite s m e =>
      let a := if 0 <=? e then Zpos m * 2 ^ e else Zpos m in
      if s then - a else a
  | _ => 0
  end.

Definition den (x : float) : Z :=
  match x with
  | S754_finite _ _ e => if 0 <=? e then 1 else 2 ^ (- e)
  | _ => 1
  end.

Definition is_finite (x : float) : bool :=
  match x with
  | S754_finite _ _ _ | S754_zero _ => true
  | _ => false
  end.

(** The literal [0.1f], bit pattern 0x3DCCCCCD. *)
Definition lit_0_1 : float := S754_finite false 13421773 (-27).
(** The literal [327.67f], bit pattern 0x43A3D5C3. *)
Definition lit_327_67 : float := S754_finite false 10737091 (-15).

End F32.

(** ** Frames and events *)

(** A CAN message as the sketches fill it in: [CAN_message_t] of FlexCAN_T4
    and [CAN_FRAME] of due_can.  [buf] is the 8-byte data array. *)
Record Frame : Type := mkFrame {
  id : Z;
  extended : bool;
  rtr : bool;
  len : Z;
  buf : list Z
}.

(** [msg.buf[i]]. *)
Definition byte_at (msg : Frame) (i : nat) : Z := nth i (buf msg) 0.

Fixpoint list_set (i : nat) (v : Z) (l : list Z) : list Z :=
  match l, i with
  | [], _ => []
  | _ :: t, O => v :: t
  | h :: t, S j => h :: list_set j v t
  end.

(** [msg.buf[i] = v]. *)
Definition set_buf (i : nat) (v : Z) (msg : Frame) : Frame :=
  mkFrame (id msg) (extended msg) (rtr msg) (len msg)
          (list_set i (to_uint8 v) (buf msg)).

(** [CAN_message_t msg = {0}] and a default-constructed [CAN_FRAME]. *)
Definition zero_frame : Frame := mkFrame 0 false false 0 [0;0;0;0;0;0;0;0].

Definition BAMOCAR_RX_ID : Z := 0x201.
Definition BAMOCAR_TX_ID : Z := 0x181.

(** The text produced by [interpretBamocarMessage]: one constructor for each
    [sprintf] format of the function, carrying the arguments of the format. *)
Inductive Decoded : Type :=
| RequestRegister (target : Z)          (* "Request register 0x%02X" *)
| ClearAllErrorFlags                    (* "Clear all error flags" *)
| LockDisableDrive                      (* "Lock/Disable drive" *)
| EnableDrive                           (* "Enable drive" *)
| DriveControlCommand (flag : Z)        (* "Drive control command 0x%02X" *)
| SetTorque (tq : Z)      (* "Set torque command = %d", "Set torque = %d" *)
| SetCanTimeout (ms : Z)                (* "Set CAN timeout = %d ms" *)
| CommandSent (reg : Z)                 (* "Command 0x%02X sent" *)
| SpeedFeedback (rpm : Z)               (* "Speed feedback = %d rpm" *)
| StatusWord (status : Z)               (* "Status word = 0x%04X" *)
| StatusWordBits (status enabled ready fault : Z)
                       (* "Status word 0x%04X -> Enabled:%d Ready:%d Fault:%d" *)
| DCBusVoltage (volts : F32.float)      (* "DC bus voltage = %.1f V" *)
| ActualCurrent (amps : F32.float)      (* "Actual current = %.1f A" *)
| TorqueFeedback (percent : F32.float)  (* "Torque feedback = %.1f %%" *)
| ReplyRegister (reg : Z)               (* "Reply register 0x%02X" *)
| NoText.                               (* "" *)

Inductive Direction : Type := TX | RX.

Inductive Event : Type :=
| Sent (msg : Frame)                                  (* Can.write / sendFrame *)
| Logged (dir : Direction) (msg : Frame) (text : Decoded)   (* logCANFrame *)
| Serial (text : string) (args : list Z)              (* Serial.print... *)
| Delay (ms : Z).                                     (* delay(ms) *)

(** The frames of a trace, in transmission order. *)
Fixpoint frames (t : list Event) : list Frame :=
  match t with
  | [] => []
  | Sent msg :: t' => msg :: frames t'
  | _ :: t' => frames t'
  end.

(** The milliseconds a trace spends in [delay]. *)
Fixpoint delayed (t : list Event) : Z :=
  match t with
  | [] => 0
  | Delay ms :: t' => ms + delayed t'
  | _ :: t' => delayed t'
  end.

(** [msg.buf[1] | (msg.buf[2] << 8)], evaluated in [int]. *)
Definition raw16 (msg : Frame) : Z :=
  Z.lor (byte_at msg 1) (Z.shiftl (byte_at msg 2) 8).

(** What one pass of [loop] reads from its environment: whether
    [Serial.available()] is non-zero, the frames waiting in the receive
    queue, the value of [analogRead(A0)], and the values of [millis()] at the
    cadence test and after the torque frame has been sent. *)
Record Tick : Type := mkTick {
  key : bool;
  inbox : list Frame;
  pot : Z;
  now : Z;
  now_sent : Z
}.

(** ** Teensy bring-up sketch with logger, advanced by key presses

    Source: src/unnamed/part_002.  Serial text is kept to its ASCII part;
    the writes to the SD card appear as [Logged] events. *)

Module TeensyLogger.

Definition MAX_ACCEL_PERCENT : Z := 50.
Definition TORQUE_MAX : Z := 32767.

Record Globals : Type := mkGlobals {
  currentStep : Z;        (* int *)
  currentTorque : Z;      (* int16_t *)
  lastTorqueSend : Z      (* uint32_t *)
}.

Definition initial : Globals := mkGlobals 0 0 0.

Definition interpretBamocarMessage (msg : Frame) : Decoded :=
  let reg := byte_at msg 0 in
  if id msg =? BAMOCAR_RX_ID then
    if reg =? 0x3D then RequestRegister (byte_at msg 1)
    else if reg =? 0x8E then ClearAllErrorFlags
    else if reg =? 0x51 then
      if byte_at msg 1 =? 0x04 then LockDisableDrive
      else if byte_at msg 1 =? 0x00 then EnableDrive
      else DriveControlCommand (byte_at msg 1)
    else if reg =? 0x90 then
      let tq := to_int16 (raw16 msg) in SetTorque tq
    else if reg =? 0xD0 then
      let timeout := raw16 msg in SetCanTimeout timeout
    else CommandSent reg
  else if id msg =? BAMOCAR_TX_ID then
    if reg =? 0x30 then
      let rpm := to_int16 (raw16 msg) in SpeedFeedback rpm
    else if reg =? 0x40 then
      let status := to_uint16 (raw16 msg) in
      StatusWordBits status (Z.land status 0x0001) (Z.land status 0x0004)
                     (Z.land status 0x0040)
    else if reg =? 0xEB then
      let val := to_uint16 (raw16 msg) in
      let volts := F32.mul (F32.of_Z val) F32.lit_0_1 in
      DCBusVoltage volts
    else if reg =? 0x5F then
      let amps := to_int16 (raw16 msg) in
      ActualCurrent (F32.mul (F32.of_Z amps) F32.lit_0_1)
    else if reg =? 0xA0 then
      let tq := to_int16 (raw16 msg) in
      TorqueFeedback (F32.div (F32.of_Z tq) F32.lit_327_67)
    else ReplyRegister reg
  else NoText.

Definition logCANFrame (msg : Frame) (dir : Direction) : list Event :=
  [Logged dir msg (interpretBamocarMessage msg)].

Definition sendCAN (msg : Frame) : list Event :=
  Sent msg :: logCANFrame msg TX.

(** The common prologue of the send helpers:
    [msg = {0}; msg.id = BAMOCAR_RX_ID; msg.len = 3;] followed by the three
    assignments to [msg.buf[0..2]]. *)
Definition command (b0 b1 b2 : Z) : Frame :=
  set_buf 2 b2 (set_buf 1 b1 (set_buf 0 b0
    (mkFrame BAMOCAR_RX_ID (extended zero_frame) (rtr zero_frame) 3
             (buf zero_frame)))).

Definition requestStatusCyclic (interval_ms : Z) : list Event :=
  sendCAN (command 0x3D 0x40 (to_uint8 interval_ms))
  ++ [Serial "Sent: Request STATUS cyclic" []].

Definition requestStatusOnce : list Event :=
  sendCAN (command 0x3D 0x40 0x00) ++ [Serial "Sent: Request STATUS once" []].

Definition requestSpeedCyclic (interval_ms : Z) : list Event :=
  sendCAN (command 0x3D 0x30 (to_uint8 interval_ms))
  ++ [Serial "Sent: Request SPEED_ACTUAL cyclic" []].

Definition requestDCBusOnce : list Event :=
  sendCAN (command 0x3D 0xEB 0x00) ++ [Serial "Sent: Request DC bus voltage" []].

Definition clearErrors : list Event :=
  sendCAN (command 0x8E 0x00 0x00) ++ [Serial "Sent: Clear errors" []].

Definition configureCanTimeout (ms : Z) : list Event :=
  let ms := to_uint16 ms in
  sendCAN (command 0xD0 (Z.land ms 0xFF) (Z.land (Z.shiftr ms 8) 0xFF))
  ++ [Serial "Sent: Configure CAN timeout (%d ms)" [ms]].

Definition enableDrive : list Event :=
  let msg := command 0x51 0x04 0x00 in
  sendCAN msg
  ++ [Serial "Sent: Lock/Disable" []]
  ++ [Delay 100]
  ++ (let msg := set_buf 1 0x00 msg in
      sendCAN msg ++ [Serial "Sent: Enable drive" []]).

Definition disableDrive : list Event :=
  sendCAN (command 0x51 0x04 0x00) ++ [Serial "Sent: Disable drive" []].

Definition sendTorqueCommand (torqueValue : Z) : list Event :=
  let torqueValue := to_int16 torqueValue in
  sendCAN (command 0x90 (Z.land torqueValue 0xFF)
                        (Z.land (Z.shiftr torqueValue 8) 0xFF)).

(** [dumpLogToSerial] only moves bytes from the SD card to the serial
    port; it touches neither the CAN controller nor the globals. *)
Definition dumpLogToSerial : list Event :=
  [Serial "===== CSV LOG DUMP BEGIN =====" [];
   Serial "===== CSV LOG DUMP END =====" []].

Definition executeStep (step : Z) : list Event :=
  match step with
  | 1 => requestStatusCyclic 100 ++ requestSpeedCyclic 100
  | 2 => requestDCBusOnce
  | 3 => clearErrors
  | 4 => configureCanTimeout 2000
  | 5 => clearErrors ++ [Delay 100] ++ enableDrive ++ requestStatusOnce
  | 6 => sendTorqueCommand 0 ++ [Serial "Torque set to 0 for sanity check" []]
  | 7 => [Serial "Torque control active (A0)" [];
          Serial "Max accel cap: %d%%" [MAX_ACCEL_PERCENT]]
  | 8 => disableDrive ++ [Serial "Drive disabled" []]
  | 9 => Serial "Dumping log contents to Serial..." [] :: dumpLogToSerial
  | _ => [Serial "All steps complete." []]
  end.

Definition handleSerialInput (available : bool) (g : Globals)
  : Globals * list Event :=
  if available then
    let step := to_int32 (currentStep g + 1) in
    (mkGlobals step (currentTorque g) (lastTorqueSend g), executeStep step)
  else (g, []).

Definition readOne (msg : Frame) : list Event :=
  logCANFrame msg RX
  ++ [Serial "RX 0x%03X: " [id msg]]
  ++ map (fun b => Serial "%02X " [b]) (firstn (Z.to_nat (len msg)) (buf msg))
  ++ [Serial "" []]
  ++ (if (id msg =? BAMOCAR_TX_ID) && (3 <=? len msg) then
        let reg := byte_at msg 0 in
        if reg =? 0x40 then
          let status := to_uint16 (raw16 msg) in
          [Serial "STATUS 0x%04X | Enabled:%d Ready:%d Fault:%d"
             [status;
              if Z.land status 0x0001 =? 0 then 0 else 1;
              if Z.land status 0x0004 =? 0 then 0 else 1;
              if Z.land status 0x0040 =? 0 then 0 else 1]]
        else []
      else []).

Definition readCanMessages (queue : list Frame) : list Event :=
  flat_map readOne queue.

(** The unidirectional scaler: the value [updateTorqueFromPot] stores in
    [currentTorque] for the reading [potValue].  Its serial report is
    emitted by [loop] below. *)
Definition updateTorqueFromPot (potValue : Z) : Z :=
  let potPercent :=
    F32.mul (F32.div (F32.of_Z potValue) (F32.of_Z 4095))
            (F32.of_Z MAX_ACCEL_PERCENT) in
  to_int16 (F32.to_Z (F32.mul (F32.of_Z TORQUE_MAX)
                              (F32.div potPercent (F32.of_Z 100)))).

(** One pass of [loop]; the periodic [logFile.flush()] is left out. *)
Definition loop (e : Tick) (g : Globals) : Globals * list Event :=
  let '(g, t1) := handleSerialInput (key e) g in
  let t2 := readCanMessages (inbox e) in
  if (currentStep g =? 7)
     && (20 <=? to_uint32 (now e - lastTorqueSend g)) then
    let tq := updateTorqueFromPot (pot e) in
    (mkGlobals (currentStep g) tq (to_uint32 (now_sent e)),
     t1 ++ t2
     ++ [Serial "Pot: %4d -> accel -> Torque %d" [pot e; tq]]
     ++ sendTorqueCommand tq)
  else (g, t1 ++ t2).

End TeensyLogger.

(** ** Teensy headless bring-up sketch: the sequence runs from [setup]

    Source: src/TEENSY_COMMAND_MOTOR/src/main.cpp. *)

Module TeensyHeadless.

Definition MAX_ACCEL_PERCENT : Z := 50.
Definition TORQUE_MAX : Z := 32767.

Record Globals : Type := mkGlobals {
  currentStep : Z;        (* int *)
  currentTorque : Z;      (* int16_t *)
  lastTorqueSend : Z;     (* uint32_t *)
  bamocarOnline : bool
}.

Definition initial : Globals := mkGlobals 0 0 0 false.

Definition interpretBamocarMessage (msg : Frame) : Decoded :=
  let reg := byte_at msg 0 in
  if id msg =? BAMOCAR_RX_ID then
    if reg =? 0x3D then RequestRegister (byte_at msg 1)
    else if reg =? 0x8E then ClearAllErrorFlags
    else if reg =? 0x51 then
      if byte_at msg 1 =? 0x04 then LockDisableDrive
      else if byte_at msg 1 =? 0x00 then EnableDrive
      else DriveControlCommand (byte_at msg 1)
    else if reg =? 0x90 then SetTorque (raw16 msg)
    else if reg =? 0xD0 then SetCanTimeout (raw16 msg)
    else CommandSent reg
  else if id msg =? BAMOCAR_TX_ID then
    if reg =? 0x30 then SpeedFeedback (raw16 msg)
    else if reg =? 0x40 then StatusWord (raw16 msg)
    else if reg =? 0xEB then
      DCBusVoltage (F32.mul (F32.of_Z (raw16 msg)) F32.lit_0_1)
    else ReplyRegister reg
  else NoText.

Definition logCANFrame (msg : Frame) (dir : Direction) : list Event :=
  [Logged dir msg (interpretBamocarMessage msg)].

Definition sendCAN (msg : Frame) : list Event :=
  Sent msg :: logCANFrame msg TX.

Definition command (b0 b1 b2 : Z) : Frame :=
  set_buf 2 b2 (set_buf 1 b1 (set_buf 0 b0
    (mkFrame BAMOCAR_RX_ID (extended zero_frame) (rtr zero_frame) 3
             (buf zero_frame)))).

Definition requestStatusCyclic (interval_ms : Z) : list Event :=
  sendCAN (command 0x3D 0x40 (to_uint8 interval_ms)).

Definition requestStatusOnce : list Event :=
  sendCAN (command 0x3D 0x40 0x00).

Definition requestSpeedCyclic (interval_ms : Z) : list Event :=
  sendCAN (command 0x3D 0x30 (to_uint8 interval_ms)).

Definition requestDCBusOnce : list Event :=
  sendCAN (command 0x3D 0xEB 0x00).

Definition clearErrors : list Event :=
  sendCAN (command 0x8E 0x00 0x00).

Definition configureCanTimeout (ms : Z) : list Event :=
  let ms := to_uint16 ms in
  sendCAN (command 0xD0 (Z.land ms 0xFF) (Z.land (Z.shiftr ms 8) 0xFF)).

Definition enableDrive : list Event :=
  let msg := command 0x51 0x04 0x00 in
  sendCAN msg
  ++ [Delay 100]
  ++ (let msg := set_buf 1 0x00 msg in sendCAN msg).

Definition disableDrive : list Event :=
  sendCAN (command 0x51 0x04 0x00).

Definition sendTorqueCommand (torqueValue : Z) : list Event :=
  let torqueValue := to_int16 torqueValue in
  sendCAN (command 0x90 (Z.land torqueValue 0xFF)
                        (Z.land (Z.shiftr torqueValue 8) 0xFF)).

(** [dumpLogToSerial] copies the log file to the serial port. *)
Definition dumpLogToSerial : list Event := [].

(** [executeStep] stores the step before it acts.  In case 8 the call of
    [disableDrive] is commented out in the source: only the text is
    printed. *)
Definition executeStep (step : Z) (g : Globals) : Globals * list Event :=
  let g := mkGlobals step (currentTorque g) (lastTorqueSend g)
                     (bamocarOnline g) in
  (g,
   match step with
   | 1 => requestStatusCyclic 100 ++ requestSpeedCyclic 100
          ++ [Serial "Step 1: Cyclic STATUS + RPM started." []]
   | 2 => requestDCBusOnce
   | 3 => clearErrors
   | 4 => configureCanTimeout 2000
   | 5 => clearErrors ++ [Delay 100] ++ enableDrive ++ requestStatusOnce
   | 6 => sendTorqueCommand 0 ++ [Serial "Torque set to 0 for sanity check" []]
   | 7 => [Serial "Torque control active (A0)" [];
           Serial "Max accel cap: %d%%" [MAX_ACCEL_PERCENT]]
   | 8 => [Serial "Drive disabled" []]
   | 9 => dumpLogToSerial
   | _ => []
   end).

(** The test of [readCanMessages] that raises the online flag. *)
Definition is_status (msg : Frame) : bool :=
  (id msg =? BAMOCAR_TX_ID) && (3 <=? len msg) && (byte_at msg 0 =? 0x40).

Fixpoint readCanMessages (queue : list Frame) (g : Globals)
  : Globals * list Event :=
  match queue with
  | [] => (g, [])
  | msg :: rest =>
      let g :=
        if is_status msg
        then mkGlobals (currentStep g) (currentTorque g) (lastTorqueSend g) true
        else g in
      let '(g, t) := readCanMessages rest g in
      (g, logCANFrame msg RX ++ t)
  end.

(** The unidirectional scaler: the value [updateTorqueFromPot] stores in
    [currentTorque] for the reading [potValue]. *)
Definition potPercent_of (potValue : Z) : F32.float :=
  F32.div (F32.mul (F32.of_Z (to_int32 (2930 - potValue))) (F32.of_Z 100))
          (F32.of_Z (2930 - 1860)).

Definition updateTorqueFromPot (potValue : Z) : Z :=
  let potPercent := potPercent_of potValue in
  let potPercent :=
    if F32.ltb potPercent (F32.of_Z 0) then F32.of_Z 0 else potPercent in
  let potPercent :=
    if F32.ltb (F32.of_Z MAX_ACCEL_PERCENT) potPercent
    then F32.of_Z MAX_ACCEL_PERCENT else potPercent in
  to_int16 (F32.to_Z (F32.mul (F32.of_Z TORQUE_MAX)
                              (F32.div potPercent (F32.of_Z 100)))).

(** *** The bounded wait for the drive in [setup]

    [while (!bamocarOnline && millis() - startTime < 10000)
       { requestStatusOnce(); readCanMessages(); delay(100); }]

    The world of the wait is the content of the receive queue at each poll
    ([rx k] at the k-th pass) and the milliseconds the k-th pass spends
    outside [delay] ([cost k]: transmission, SD card, parsing).  [clock]
    is the value of [millis()]. *)
Record Bus : Type := mkBus {
  rx : nat -> list Frame;
  cost : nat -> Z
}.

Fixpoint awaitOnline (fuel : nat) (w : Bus) (k : nat) (startTime clock : Z)
         (g : Globals) : option (Globals * Z * list Event) :=
  if negb (bamocarOnline g) && (to_uint32 (clock - startTime) <? 10000) then
    match fuel with
    | O => None
    | S fuel' =>
        let t1 := requestStatusOnce in
        let '(g, t2) := readCanMessages (rx w k) g in
        let t := t1 ++ t2 ++ [Delay 100] in
        let clock := to_uint32 (clock + delayed t + cost w k) in
        match awaitOnline fuel' w (S k) startTime clock g with
        | Some (g, clock, t') => Some (g, clock, t ++ t')
        | None => None
        end
    end
  else Some (g, clock, []).

(** The probes of a trace: its STATUS requests. *)
Definition is_probe (msg : Frame) : bool :=
  (id msg =? BAMOCAR_RX_ID) && (len msg =? 3)
  && (byte_at msg 0 =? 0x3D) && (byte_at msg 1 =? 0x40)
  && (byte_at msg 2 =? 0x00).

Definition probes (t : list Event) : Z :=
  Z.of_nat (List.length (filter is_probe (frames t))).

(** The pedal is at rest when it is pressed by at most 5 percent. *)
Definition pedal_pressed (potValue : Z) : bool :=
  F32.ltb (F32.of_Z 5) (potPercent_of potValue).

(** [while (pressed) { potValue = analogRead(A0); delay(50); }]: the
    readings are [pedal j], [pedal (j+1)], ... *)
Fixpoint awaitPedal (fuel : nat) (pedal : nat -> Z) (j : nat) (potValue : Z)
  : option (list Event) :=
  if pedal_pressed potValue then
    match fuel with
    | O => None
    | S fuel' =>
        match awaitPedal fuel' pedal (S j) (pedal j) with
        | Some t => Some (Delay 50 :: t)
        | None => None
        end
    end
  else Some [].

Inductive Outcome : Type :=
| Aborted (g : Globals) (t : list Event)   (* no reply: [while (1);] *)
| Ready (g : Globals) (t : list Event)     (* [setup] returned *)
| Waiting.                                 (* the fuel ran out *)

Definition run (step : Z) (ms : Z) (gt : Globals * list Event)
  : Globals * list Event :=
  let '(g, t) := gt in
  let '(g, t') := executeStep step g in
  (g, t ++ t' ++ [Delay ms]).

(** [setup] after the SD card has been opened.  [pedal] lists the values
    of [analogRead(A0)] in the order they are read. *)
Definition setup (fuel : nat) (w : Bus) (pedal : nat -> Z) (startTime : Z)
  : Outcome :=
  let '(g, t1) := executeStep 1 initial in
  let t1 := t1 ++ [Serial "Waiting for Bamocar to respond..." []] in
  match awaitOnline fuel w 0 startTime startTime g with
  | None => Waiting
  | Some (g, _, t2) =>
      if negb (bamocarOnline g) then
        Aborted g (t1 ++ t2
                   ++ [Serial "No Bamocar response detected. Aborting." []])
      else
        let '(g, t3) :=
          run 6 500 (run 5 500 (run 4 200 (run 3 200 (run 2 200
            (g, t1 ++ t2 ++ [Serial "Bamocar online detected." []]))))) in
        let sum := fold_left Z.add (map pedal (seq 0 10)) 0 in
        let potValue := Z.quot sum 10 in
        match awaitPedal fuel pedal 10 potValue with
        | None => Waiting
        | Some t4 =>
            let '(g, t5) := executeStep 7 g in
            Ready g (t3 ++ [Serial "Waiting for pedal release..." []]
                     ++ repeat (Delay 10) 10 ++ t4
                     ++ [Serial "Pedal released, continuing..." []] ++ t5)
        end
  end.

(** One pass of [loop]; the periodic [logFile.flush()] is left out. *)
Definition loop (e : Tick) (g : Globals) : Globals * list Event :=
  let '(g, t1) := readCanMessages (inbox e) g in
  if (currentStep g =? 7)
     && (20 <=? to_uint32 (now e - lastTorqueSend g)) then
    let tq := updateTorqueFromPot (pot e) in
    (mkGlobals (currentStep g) tq (to_uint32 (now_sent e)) (bamocarOnline g),
     t1 ++ sendTorqueCommand tq)
  else (g, t1).

End TeensyHeadless.

(** ** Arduino Due interactive sketch with potentiometer, advanced by key presses

    Source: src/unnamed/part_000, second sketch. *)

Module DueInteractive.

Definition MAX_ACCEL_PERCENT : Z := 50.
Definition TORQUE_MAX : Z := 32767.
Definition TORQUE_SEND_INTERVAL_MS : Z := 20.
Definition SPEED_REQUEST_INTERVAL_MS : Z := 100.

Record Globals : Type := mkGlobals {
  currentStep : Z;            (* uint8_t *)
  currentTorqueCommand : Z;   (* int16_t *)
  lastTorqueSend : Z          (* uint32_t *)
}.

Definition initial : Globals := mkGlobals 0 0 0.

(** [CAN_FRAME frame; frame.id = BAMOCAR_RX_ID; frame.extended = false;
    frame.priority = 0; frame.rtr = 0; frame.length = 3;] and the three
    data bytes.  The mailbox priority is not part of the frame. *)
Definition command (b0 b1 b2 : Z) : Frame :=
  set_buf 2 b2 (set_buf 1 b1 (set_buf 0 b0
    (mkFrame BAMOCAR_RX_ID false false 3 (buf zero_frame)))).

Definition requestStatusOnce : list Event :=
  [Sent (command 0x3D 0x40 0x00);
   Serial "Sent: Request STATUS once (0x3D 0x40 0x00)" []].

Definition requestSpeedCyclic (intervalMs : Z) : list Event :=
  let intervalMs := to_uint8 intervalMs in
  [Sent (command 0x3D 0x30 intervalMs);
   Serial "Sent: Request SPEED_ACTUAL cyclic (0x3D 0x30 0x%X)" [intervalMs]].

Definition enableDrive : list Event :=
  [Sent (command 0x51 0x00 0x00);
   Serial "Sent: Enable drive (0x51 0x00 0x00)" []].

Definition disableDrive : list Event :=
  [Sent (command 0x51 0x04 0x00);
   Serial "Sent: Disable drive (0x51 0x04 0x00)" []].

Definition sendTorqueCommand (torqueValue : Z) : list Event :=
  let torqueValue := to_int16 torqueValue in
  [Sent (command 0x90 (to_uint8 (Z.land torqueValue 0xFF))
                      (to_uint8 (Z.land (Z.shiftr torqueValue 8) 0xFF)));
   Serial "Sent torque command: %d" [torqueValue]].

Definition executeStep (step : Z) (g : Globals) : Globals * list Event :=
  match step with
  | 1 => (g, requestStatusOnce)
  | 2 => (g, requestSpeedCyclic SPEED_REQUEST_INTERVAL_MS)
  | 3 => (g, enableDrive)
  | 4 => (mkGlobals (currentStep g) (currentTorqueCommand g) 0,
          [Serial "Potentiometer torque control active (0-100% travel, 0-%d%%)."
             [MAX_ACCEL_PERCENT]])
  | 5 => (mkGlobals (currentStep g) 0 (lastTorqueSend g),
          sendTorqueCommand 0 ++ [Serial "Torque command forced to 0." []])
  | 6 => (g, disableDrive ++ [Serial "Drive disabled." []])
  | _ => (g, [Serial "Sequence complete. Reset the board to restart." []])
  end.

(** All waiting characters are consumed, then the step advances once.
    [currentStep] is a [uint8_t]: the increment is modulo 256. *)
Definition handleSerialInput (available : bool) (g : Globals)
  : Globals * list Event :=
  if available then
    let step := to_uint8 (currentStep g + 1) in
    executeStep step
      (mkGlobals step (currentTorqueCommand g) (lastTorqueSend g))
  else (g, []).

(** The unidirectional scaler of this sketch. *)
Definition updateTorqueFromPot (potValue : Z) : Z :=
  let accelPercent :=
    F32.mul (F32.div (F32.of_Z potValue) (F32.of_Z 4095))
            (F32.of_Z MAX_ACCEL_PERCENT) in
  let torquePercentOf150 := F32.div accelPercent (F32.of_Z 150) in
  let scaledTorque :=
    to_int32 (F32.to_Z (F32.mul (F32.of_Z TORQUE_MAX) torquePercentOf150)) in
  let scaledTorque :=
    if TORQUE_MAX <? scaledTorque then TORQUE_MAX
    else if scaledTorque <? 0 then 0
    else scaledTorque in
  to_int16 scaledTorque.

Definition readOne (incoming : Frame) : list Event :=
  [Serial "RX ID: 0x%X  Data: " [id incoming]]
  ++ map (fun b => Serial "%02X " [b])
         (firstn (Z.to_nat (len incoming)) (buf incoming))
  ++ (if (id incoming =? BAMOCAR_TX_ID) && (3 <=? len incoming)
         && (byte_at incoming 0 =? 0x40)
      then [Serial "Drive STATUS: 0x%X" [to_uint16 (raw16 incoming)]]
      else []).

Definition readCanMessages (queue : list Frame) : list Event :=
  flat_map readOne queue.

(** One pass of [loop]. *)
Definition loop (e : Tick) (g : Globals) : Globals * list Event :=
  let '(g, t1) := handleSerialInput (key e) g in
  let t2 := readCanMessages (inbox e) in
  if (currentStep g =? 4)
     && (TORQUE_SEND_INTERVAL_MS <=? to_uint32 (now e - lastTorqueSend g)) then
    let tq := updateTorqueFromPot (pot e) in
    (mkGlobals (currentStep g) tq (to_uint32 (now e)),
     t1 ++ t2
     ++ [Serial "Pot: %d, Torque command %d" [pot e; tq]]
     ++ sendTorqueCommand tq)
  else (g, t1 ++ t2).

End DueInteractive.

(** ** Arduino Due torque sender: fixed set point, and potentiometer set point

    Sources: src/unnamed/part_000, first sketch (fixed set point), and
    src/DUE_SEND_TORQUE/src/main.cpp (potentiometer).  The two sketches
    share [setup], the lock and enable frames and the enable sequence. *)

Module DueSender.

Definition MAX_ACCEL_POS : Z := 50.
Definition TORQUE_FULL_SCALE : Z := 32767.
Definition MAX_TORQUE_COMMAND : Z :=
  to_int16 (Z.quot (to_int32 MAX_ACCEL_POS * TORQUE_FULL_SCALE) 100).

Definition ANALOG_CENTER : Z := 512.
Definition ANALOG_RANGE : Z := 1023.
Definition ANALOG_DEADZONE : Z := 8.

(** The three frames [setup] prepares.  [fixedTorqueFrame] is the torque
    frame of the sketch without potentiometer (15 percent, 0x1332). *)
Definition prepared (b0 b1 b2 : Z) : Frame :=
  set_buf 2 b2 (set_buf 1 b1 (set_buf 0 b0
    (mkFrame 0x201 false false 3 (buf zero_frame)))).

Definition torqueFrame : Frame := prepared 0x90 0x00 0x00.
Definition fixedTorqueFrame : Frame := prepared 0x90 0x32 0x13.
Definition lockFrame : Frame := prepared 0x51 0x04 0x00.
Definition enableFrame : Frame := prepared 0x51 0x00 0x00.

(** The bidirectional scaler: the value of [torqueCommand] in
    [sendTorqueFrame] for the reading [rawPot]. *)
Definition torqueCommand (rawPot : Z) : Z :=
  let centered := to_int32 (rawPot - ANALOG_CENTER) in
  let centered := if abs centered <=? ANALOG_DEADZONE then 0 else centered in
  let scaledCommand :=
    Z.quot (to_int32 (centered * MAX_TORQUE_COMMAND)) ANALOG_CENTER in
  let scaledCommand :=
    if MAX_TORQUE_COMMAND <? scaledCommand then MAX_TORQUE_COMMAND
    else if scaledCommand <? - MAX_TORQUE_COMMAND then - MAX_TORQUE_COMMAND
    else scaledCommand in
  to_int16 scaledCommand.

(** [sendTorqueFrame] rewrites bytes 1 and 2 of the global frame and sends
    it; the new frame is returned with the events. *)
Definition sendTorqueFrame (rawPot : Z) (frame : Frame) : Frame * list Event :=
  let torqueCommand := torqueCommand rawPot in
  let commandBytes := to_uint16 torqueCommand in
  let frame :=
    set_buf 2 (Z.land (Z.shiftr commandBytes 8) 0xFF)
            (set_buf 1 (Z.land commandBytes 0xFF) frame) in
  (frame,
   [Sent frame;
    Serial "Sent torque frame: %X %X %X over CAN, ID:%X"
      [byte_at frame 0; byte_at frame 1; byte_at frame 2; id frame];
    Serial "Pot raw: %d -> torque command: %d" [rawPot; torqueCommand]]).

Definition sendLockFrame : list Event :=
  [Sent lockFrame;
   Serial "Sent lock frame: %X %X %X over CAN, ID:%X"
     [byte_at lockFrame 0; byte_at lockFrame 1; byte_at lockFrame 2;
      id lockFrame]].

Definition sendEnableFrame : list Event :=
  [Sent enableFrame;
   Serial "Sent enable frame: %X %X %X over CAN, ID:%X"
     [byte_at enableFrame 0; byte_at enableFrame 1; byte_at enableFrame 2;
      id enableFrame]].

(** The branch of [loop] taken when an 's' or 'S' has been received. *)
Definition enableSequence : list Event :=
  [Serial "Pause requested. Halting torque frame transmission for 2 seconds..." [];
   Delay 2000;
   Serial "Sending lock frame (ENABLE OFF) to motor controller." []]
  ++ sendLockFrame
  ++ [Delay 100;
      Serial "Sending enable frame (NOT ENABLE OFF) to motor controller." []]
  ++ sendEnableFrame
  ++ [Serial "Waiting 2 seconds before resuming torque transmission." [];
      Delay 2000;
      Serial "Resuming torque frame transmissions." []].

(** [sendTorqueFrame] of the sketch without potentiometer. *)
Definition sendFixedTorqueFrame : list Event :=
  [Sent fixedTorqueFrame;
   Serial "Sent torque frame: %X %X %X over CAN, ID:%X"
     [byte_at fixedTorqueFrame 0; byte_at fixedTorqueFrame 1;
      byte_at fixedTorqueFrame 2; id fixedTorqueFrame]].

Definition triggered (chars : list Z) : bool :=
  existsb (fun c => (c =? 115) || (c =? 83)) chars.

Definition loopFixed (chars : list Z) : list Event :=
  if triggered chars then enableSequence
  else sendFixedTorqueFrame ++ [Delay 10].

(** One pass of [loop] of the potentiometer sketch.  [chars] are the
    characters waiting on the serial port (as character codes). *)
Definition loop (chars : list Z) (rawPot : Z) (frame : Frame)
  : Frame * list Event :=
  let triggerEnableSequence := triggered chars in
  if triggerEnableSequence then (frame, enableSequence)
  else
    let '(frame, t) := sendTorqueFrame rawPot frame in
    (frame, t ++ [Delay 10]).

End DueSender.

(** ** Pro Micro listener: interpretation of received frames

    Source: src/PRO_M_MOCK_MC/src/main.cpp. *)

Module Listener.

(** The outcome of [interpretMessage]: what it prints. *)
Inductive Report : Type :=
| RemoteFrame                              (* "Remote frame" *)
| PayloadTooShort                          (* "... payload too short" *)
| TorqueRequest (rawTorque : Z) (torquePercent : F32.float)
| CommandData (regId : Z) (data : list Z)
| Silent.                                  (* nothing is printed *)

(** The literal [32768.0f]. *)
Definition lit_32768 : F32.float := F32.of_Z 32768.

Definition interpretMessage (id : Z) (dlc : Z) (data : list Z) : Report :=
  if dlc =? 0 then RemoteFrame
  else if id =? 0x201 then
    if dlc <? 3 then PayloadTooShort
    else
      let regId := nth 0 data 0 in
      if regId =? 0x90 then
        let rawTorque :=
          to_uint16 (Z.lor (nth 1 data 0) (Z.shiftl (nth 2 data 0) 8)) in
        TorqueRequest rawTorque
          (F32.mul (F32.div (F32.of_Z rawTorque) lit_32768) (F32.of_Z 100))
      else
        CommandData regId (skipn 1 (firstn (Z.to_nat dlc) data))
  else Silent.

End Listener.

(** ** Observations used in the statements *)

(** [p] holds of the [n] integers from [z] on. *)
Fixpoint all_from (n : nat) (z : Z) (p : Z -> bool) : bool :=
  match n with
  | O => true
  | S n' => p z && all_from n' (z + 1) p
  end.

(** [p] holds of every integer from [lo] to [hi]. *)
Definition all_in (lo hi : Z) (p : Z -> bool) : bool :=
  all_from (Z.to_nat (hi - lo + 1)) lo p.

(** A frame on the wire: identifier, addressing, length and the bytes of a
    3-byte register command. *)
Definition wire (ident : Z) (n : Z) (b0 b1 b2 : Z) : Frame :=
  mkFrame ident false false n [b0; b1; b2; 0; 0; 0; 0; 0].

(** The float [v] is finite and within 1/2000 of [raw / 10]. *)
Definition tenth_of (raw : Z) (v : F32.float) : bool :=
  F32.is_finite v
  && (Z.abs (10 * F32.num v - raw * F32.den v) * 2000 <? 10 * F32.den v).

(** The cap of the sketches: 50 percent of the full scale 32767, as an
    integer. *)
Definition maxTorque : Z := DueSender.MAX_TORQUE_COMMAND.

(** The part of [TeensyHeadless.updateTorqueFromPot] that follows the
    computation of the percentage: the two clamps and the final scaling. *)
Definition headless_clamp_scale (potPercent : F32.float) : Z :=
  let potPercent :=
    if F32.ltb potPercent (F32.of_Z 0) then F32.of_Z 0 else potPercent in
  let potPercent :=
    if F32.ltb (F32.of_Z TeensyHeadless.MAX_ACCEL_PERCENT) potPercent
    then F32.of_Z TeensyHeadless.MAX_ACCEL_PERCENT else potPercent in
  to_int16 (F32.to_Z (F32.mul (F32.of_Z TeensyHeadless.TORQUE_MAX)
                              (F32.div potPercent (F32.of_Z 100)))).

(** Floats that are not above zero: negative values, minus zero, and the
    result of an invalid operation. *)
Definition not_positive (x : F32.float) : Prop :=
  match x with
  | S754_zero true | S754_infinity true | S754_finite true _ _ | S754_nan => True
  | _ => False
  end.

(** What the bus sees of a trace: the frames and the pauses between them. *)
Fixpoint timeline (t : list Event) : list Event :=
  match t with
  | [] => []
  | Sent msg :: t' => Sent msg :: timeline t'
  | Delay ms :: t' => Delay ms :: timeline t'
  | _ :: t' => timeline t'
  end.

Definition is_reg51 (msg : Frame) : bool := byte_at msg 0 =? 0x51.

(** The two frames of register 0x51. *)
Definition lockCommand : Frame := wire 0x201 3 0x51 0x04 0x00.
Definition enableCommand : Frame := wire 0x201 3 0x51 0x00 0x00.

(** An outbound command for register [reg]. *)
Definition command_frame (reg : Z) (msg : Frame) : Prop :=
  id msg = 0x201 /\ extended msg = false /\ len msg = 3 /\ byte_at msg 0 = reg.

(** The trace of [DueSender.loop] over successive readings, no key pressed. *)
Fixpoint pot_run (raws : list Z) (frame : Frame) : list Event :=
  match raws with
  | [] => []
  | raw :: rest =>
      let '(frame, t) := DueSender.loop [] raw frame in t ++ pot_run rest frame
  end.

(** [n] key presses in the Due interactive sketch: the globals afterwards
    and the events of the last press. *)
Fixpoint due_presses (n : nat) (g : DueInteractive.Globals)
  : DueInteractive.Globals * list Event :=
  match n with
  | O => (g, [])
  | S n' => DueInteractive.handleSerialInput true (fst (due_presses n' g))
  end.

(** The same for the Teensy logger sketch. *)
Fixpoint logger_presses (n : nat) (g : TeensyLogger.Globals)
  : TeensyLogger.Globals * list Event :=
  match n with
  | O => (g, [])
  | S n' => TeensyLogger.handleSerialInput true (fst (logger_presses n' g))
  end.

(** The value of [millis() - startTime] at the start of pass [k] of the
    wait of the headless sketch, as long as the drive has not answered. *)
Fixpoint pollTime (w : TeensyHeadless.Bus) (k : nat) : Z :=
  match k with
  | O => 0
  | S k' => pollTime w k' + 100 + TeensyHeadless.cost w k'
  end.

(** ** Log file name of the Teensy sketches

    Source: [generateFilename] of src/unnamed/part_002 and
    src/TEENSY_COMMAND_MOTOR/src/main.cpp (the same text in both). *)

Module LogFile.

(** [do { sprintf(filename, "CAN_traffic_logs_%04d.csv", index); index++; }
    while (SD.exists(filename));]

    The card is the predicate [present]: [present i] tells whether the file
    of index [i] exists.  The result is the index of the name returned, that
    is the last name formatted.  [fuel] bounds the passes of the loop. *)
Fixpoint search (fuel : nat) (present : Z -> bool) (index : Z) : option Z :=
  match fuel with
  | O => None
  | S fuel' =>
      if present index then search fuel' present (index + 1) else Some index
  end.

Definition generateFilename (fuel : nat) (present : Z -> bool) : option Z :=
  search fuel present 1.

End LogFile.

(** ** Pro Micro listener: statistics per identifier

    Source: [updateMessageStats] of src/PRO_M_MOCK_MC/src/main.cpp. *)

Module ListenerStats.

Record MessageStats : Type := mkStats {
  stat_id : Z;        (* unsigned long id *)
  count : Z;          (* unsigned long count *)
  lastSeen : Z        (* unsigned long lastSeen *)
}.

(** The table is [knownMessages[0 .. knownMessageCount - 1]]. *)
Definition Table : Type := list MessageStats.

Definition CAPACITY : Z := 16.

(** The first loop: the first entry of identifier [ident] is counted and
    stamped; [None] when there is no such entry. *)
Fixpoint bump (ident now : Z) (t : Table) : option Table :=
  match t with
  | [] => None
  | entry :: rest =>
      if stat_id entry =? ident then
        Some (mkStats (stat_id entry) (to_uint32 (count entry + 1)) now :: rest)
      else
        match bump ident now rest with
        | Some rest' => Some (entry :: rest')
        | None => None
        end
  end.

Definition updateMessageStats (ident now : Z) (t : Table) : Table :=
  match bump ident now t with
  | Some t' => t'
  | None =>
      if Z.of_nat (List.length t) <? CAPACITY
      then t ++ [mkStats ident 1 now]
      else t
  end.

(** The table after the identifiers [ids] have been received in order, the
    k-th at time [clock k]. *)
Fixpoint receive (ids : list Z) (clock : nat -> Z) (k : nat) (t : Table) : Table :=
  match ids with
  | [] => t
  | ident :: rest => receive rest clock (S k) (updateMessageStats ident (clock k) t)
  end.

Definition ids_of (t : Table) : list Z := map stat_id t.

(** The count recorded for [ident], if it is tracked. *)
Definition lookup (ident : Z) (t : Table) : option Z :=
  match find (fun entry => stat_id entry =? ident) t with
  | Some entry => Some (count entry)
  | None => None
  end.

End ListenerStats.

(** The float [v] is finite and within 1/1000 of [100 * raw / 32767]. *)
Definition percent_of (raw : Z) (v : F32.float) : bool :=
  F32.is_finite v
  && (Z.abs (32767 * F32.num v - 100 * raw * F32.den v) * 1000
      <? 32767 * F32.den v).

(** The probe of the headless wait and the frames of its bring-up steps. *)
Definition probeFrame : Frame := wire 0x201 3 0x3D 0x40 0x00.

Definition bringUpFrames : list Frame :=
  [wire 0x201 3 0x3D 0xEB 0x00;      (* step 2: DC bus voltage once *)
   wire 0x201 3 0x8E 0x00 0x00;      (* step 3: clear errors *)
   wire 0x201 3 0xD0 0xD0 0x07;      (* step 4: CAN timeout 2000 ms *)
   wire 0x201 3 0x8E 0x00 0x00;      (* step 5: clear errors, *)
   lockCommand;                      (*         lock, *)
   enableCommand;                    (*         enable, *)
   probeFrame;                       (*         STATUS once *)
   wire 0x201 3 0x90 0x00 0x00].     (* step 6: torque 0 *)

(** The two requests of step 1 of the Teensy sketches (interval 100 ms). *)
Definition heartbeatFrames : list Frame :=
  [wire 0x201 3 0x3D 0x40 100; wire 0x201 3 0x3D 0x30 100].

(** [f] does not decrease along the [n] integers from [z] on, and starts at
    [prev] or above; each value is computed once. *)
Fixpoint rising_from (n : nat) (z prev : Z) (f : Z -> Z) : bool :=
  match n with
  | O => true
  | S n' => let v := f z in (prev <=? v) && rising_from n' (z + 1) v f
  end.

(** [f] does not decrease from [lo] to [hi]. *)
Definition rising_in (lo hi : Z) (f : Z -> Z) : bool :=
  rising_from (Z.to_nat (hi - lo)) (lo + 1) (f lo) f.

(** * Properties *)

(** ** Integer and bit-level facts *)

Lemma to_int16_small (z : Z) : -32768 <= z <= 32767 -> to_int16 z = z.
Proof. intros H. unfold to_int16. rewrite Z.mod_small; lia. Qed.

Lemma to_int32_small (z : Z) :
  -2147483648 <= z <= 2147483647 -> to_int32 z = z.
Proof. intros H. unfold to_int32. rewrite Z.mod_small; lia. Qed.

Lemma to_uint8_small (z : Z) : 0 <= z < 256 -> to_uint8 z = z.
Proof. intros H. unfold to_uint8. now rewrite Z.mod_small. Qed.

Lemma to_uint16_small (z : Z) : 0 <= z < 65536 -> to_uint16 z = z.
Proof. intros H. unfold to_uint16. now rewrite Z.mod_small. Qed.

Lemma to_uint32_small (z : Z) : 0 <= z < 4294967296 -> to_uint32 z = z.
Proof. intros H. unfold to_uint32. now rewrite Z.mod_small. Qed.

Lemma to_int16_wrap (v : Z) :
  -32768 <= v <= 32767 -> to_int16 (v mod 65536) = v.
Proof.
  intros H. unfold to_int16.
  rewrite Zplus_mod_idemp_l, Z.mod_small; lia.
Qed.

(** [v & 0xFF] is the low byte. *)
Lemma low_byte (v : Z) : Z.land v 0xFF = v mod 256.
Proof. change 0xFF with (Z.ones 8). now rewrite Z.land_ones. Qed.

(** [(v >> 8) & 0xFF] is the second byte. *)
Lemma high_byte (v : Z) : Z.land (Z.shiftr v 8) 0xFF = (v / 256) mod 256.
Proof. rewrite low_byte, Z.shiftr_div_pow2 by lia. reflexivity. Qed.

(** [lo | (hi << 8)] adds up when [lo] is a byte. *)
Lemma lor_shiftl_8 (lo hi : Z) :
  0 <= lo < 256 -> Z.lor lo (Z.shiftl hi 8) = lo + 256 * hi.
Proof.
  intros Hlo.
  assert (Hdisj : Z.land lo (Z.shiftl hi 8) = 0).
  { apply Z.bits_inj'. intros n Hn.
    rewrite Z.land_spec, Z.bits_0.
    destruct (Z.ltb_spec n 8) as [Hlt | Hge].
    - rewrite Z.shiftl_spec_low by assumption. apply andb_false_r.
    - replace lo with (lo mod 2 ^ 8) by (apply Z.mod_small; lia).
      rewrite Z.mod_pow2_bits_high by lia. reflexivity. }
  rewrite <- Z.lxor_lor, <- Z.add_nocarry_lxor by assumption.
  rewrite Z.shiftl_mul_pow2 by lia. change (2 ^ 8) with 256. lia.
Qed.

(** The two bytes of a 16-bit pattern give the pattern back. *)
Lemma bytes_recombine (v : Z) :
  Z.lor (v mod 256) (Z.shiftl ((v / 256) mod 256) 8) = v mod 65536.
Proof.
  rewrite lor_shiftl_8 by (apply Z.mod_pos_bound; lia).
  change 65536 with (256 * 256). rewrite Z.rem_mul_r by lia. reflexivity.
Qed.

Lemma raw16_bytes (i : Z) (e r : bool) (l b0 b1 b2 : Z) (rest : list Z) :
  0 <= b1 < 256 ->
  raw16 (mkFrame i e r l (b0 :: b1 :: b2 :: rest)) = b1 + 256 * b2.
Proof. intros H. unfold raw16, byte_at. cbn [buf nth]. now apply lor_shiftl_8. Qed.

(** ** Exhaustive checks over an interval *)

Lemma all_from_spec (n : nat) (p : Z -> bool) :
  forall z, all_from n z p = true ->
  forall x, z <= x < z + Z.of_nat n -> p x = true.
Proof.
  induction n as [| n IH]; intros z Hall x Hx.
  - lia.
  - cbn [all_from] in Hall. apply andb_true_iff in Hall as [Hz Hrest].
    destruct (Z.eq_dec x z) as [-> | Hne]; [assumption |].
    apply (IH (z + 1)); [assumption | lia].
Qed.

Lemma all_in_spec (lo hi : Z) (p : Z -> bool) :
  all_in lo hi p = true -> forall x, lo <= x <= hi -> p x = true.
Proof.
  unfold all_in. intros Hall x Hx.
  apply (all_from_spec _ _ _ Hall). rewrite Z2Nat.id; lia.
Qed.

(** ** Register codec *)

Lemma logger_command_bytes (b0 b1 b2 : Z) :
  TeensyLogger.command b0 b1 b2
  = wire 0x201 3 (to_uint8 b0) (to_uint8 b1) (to_uint8 b2).
Proof. reflexivity. Qed.

Lemma headless_command_bytes (b0 b1 b2 : Z) :
  TeensyHeadless.command b0 b1 b2
  = wire 0x201 3 (to_uint8 b0) (to_uint8 b1) (to_uint8 b2).
Proof. reflexivity. Qed.

Lemma due_command_bytes (b0 b1 b2 : Z) :
  DueInteractive.command b0 b1 b2
  = wire 0x201 3 (to_uint8 b0) (to_uint8 b1) (to_uint8 b2).
Proof. reflexivity. Qed.

Lemma byte_of_mod (v : Z) : to_uint8 (v mod 256) = v mod 256.
Proof. apply to_uint8_small, Z.mod_pos_bound. lia. Qed.

(** The torque frame of the logger sketch is little-endian and its log
    record carries the value that was sent. *)
Lemma logger_torque_roundtrip (v : Z) :
  -32768 <= v <= 32767 ->
  TeensyLogger.sendTorqueCommand v
  = [Sent (wire 0x201 3 0x90 (v mod 256) ((v / 256) mod 256));
     Logged TX (wire 0x201 3 0x90 (v mod 256) ((v / 256) mod 256))
            (SetTorque v)].
Proof.
  intros Hv. unfold TeensyLogger.sendTorqueCommand, TeensyLogger.sendCAN,
    TeensyLogger.logCANFrame.
  rewrite to_int16_small, logger_command_bytes, low_byte, high_byte,
    !byte_of_mod by assumption.
  change (to_uint8 0x90) with 0x90.
  do 3 f_equal.
  change (TeensyLogger.interpretBamocarMessage
            (wire 0x201 3 0x90 (v mod 256) ((v / 256) mod 256)))
    with (SetTorque
            (to_int16 (Z.lor (v mod 256) (Z.shiftl ((v / 256) mod 256) 8)))).
  now rewrite bytes_recombine, to_int16_wrap.
Qed.

(** The CAN timeout of the logger sketch round-trips as an unsigned value. *)
Lemma logger_timeout_roundtrip (ms : Z) :
  0 <= ms <= 65535 ->
  frames (TeensyLogger.configureCanTimeout ms)
  = [wire 0x201 3 0xD0 (ms mod 256) ((ms / 256) mod 256)]
  /\ TeensyLogger.interpretBamocarMessage
       (wire 0x201 3 0xD0 (ms mod 256) ((ms / 256) mod 256))
     = SetCanTimeout ms.
Proof.
  intros Hms. split.
  - unfold TeensyLogger.configureCanTimeout, TeensyLogger.sendCAN,
      TeensyLogger.logCANFrame.
    rewrite to_uint16_small, logger_command_bytes, low_byte, high_byte,
      !byte_of_mod by lia.
    reflexivity.
  - change (TeensyLogger.interpretBamocarMessage
              (wire 0x201 3 0xD0 (ms mod 256) ((ms / 256) mod 256)))
      with (SetCanTimeout
              (Z.lor (ms mod 256) (Z.shiftl ((ms / 256) mod 256) 8))).
    rewrite bytes_recombine, Z.mod_small by lia. reflexivity.
Qed.

(** The headless sketch encodes the torque like the logger sketch, but its
    interpreter reports the 16-bit pattern without sign. *)
Lemma headless_torque_log (v : Z) :
  -32768 <= v <= 32767 ->
  TeensyHeadless.sendTorqueCommand v
  = [Sent (wire 0x201 3 0x90 (v mod 256) ((v / 256) mod 256));
     Logged TX (wire 0x201 3 0x90 (v mod 256) ((v / 256) mod 256))
            (SetTorque (v mod 65536))].
Proof.
  intros Hv. unfold TeensyHeadless.sendTorqueCommand, TeensyHeadless.sendCAN,
    TeensyHeadless.logCANFrame.
  rewrite to_int16_small, headless_command_bytes, low_byte, high_byte,
    !byte_of_mod by assumption.
  change (to_uint8 0x90) with 0x90.
  do 3 f_equal.
  change (TeensyHeadless.interpretBamocarMessage
            (wire 0x201 3 0x90 (v mod 256) ((v / 256) mod 256)))
    with (SetTorque (Z.lor (v mod 256) (Z.shiftl ((v / 256) mod 256) 8))).
  now rewrite bytes_recombine.
Qed.

(** C3, at the set point -16384 in the headless sketch: the frame is
    [0x90, 0x00, 0xC0] as the claim says, but the interpreter of the sketch
    reads the frame back as 49152 where the claim expects -16384. *)
Theorem headless_torque_sign_lost :
  TeensyHeadless.sendTorqueCommand (-16384)
  = [Sent (wire 0x201 3 0x90 0x00 0xC0);
     Logged TX (wire 0x201 3 0x90 0x00 0xC0) (SetTorque 49152)]
  /\ TeensyLogger.sendTorqueCommand (-16384)
     = [Sent (wire 0x201 3 0x90 0x00 0xC0);
        Logged TX (wire 0x201 3 0x90 0x00 0xC0) (SetTorque (-16384))].
Proof. split; reflexivity. Qed.

(** Neither interpreter looks at the length of the frame. *)
Lemma logger_interpret_ignores_len (i : Z) (e r : bool) (l l' : Z) (b : list Z) :
  TeensyLogger.interpretBamocarMessage (mkFrame i e r l b)
  = TeensyLogger.interpretBamocarMessage (mkFrame i e r l' b).
Proof. reflexivity. Qed.

Lemma headless_interpret_ignores_len (i : Z) (e r : bool) (l l' : Z) (b : list Z) :
  TeensyHeadless.interpretBamocarMessage (mkFrame i e r l b)
  = TeensyHeadless.interpretBamocarMessage (mkFrame i e r l' b).
Proof. reflexivity. Qed.

(** The listener rejects a command frame of one or two bytes. *)
Lemma listener_rejects_short (dlc : Z) (data : list Z) :
  0 < dlc < 3 ->
  Listener.interpretMessage 0x201 dlc data = Listener.PayloadTooShort.
Proof.
  intros H. unfold Listener.interpretMessage.
  destruct (Z.eqb_spec dlc 0); [lia |].
  cbn [Z.eqb]. change (0x201 =? 0x201) with true. cbn iota.
  destruct (Z.ltb_spec dlc 3); [reflexivity | lia].
Qed.

(** C4, at a frame of payload length 1 for register 0x90: both Teensy
    interpreters return a torque reading built from the two bytes that
    follow the payload, where the claim expects the malformed-frame error;
    the status test of [readCanMessages] guards the same read with
    [len >= 3]. *)
Theorem short_torque_frame_is_decoded :
  TeensyLogger.interpretBamocarMessage (wire 0x201 1 0x90 0x34 0x12)
  = SetTorque 0x1234
  /\ TeensyHeadless.interpretBamocarMessage (wire 0x201 1 0x90 0x34 0x12)
     = SetTorque 0x1234
  /\ TeensyHeadless.is_status (wire 0x181 1 0x40 0x34 0x12) = false.
Proof. repeat split; reflexivity. Qed.

(** The literal [0.1f] is the float nearest to one tenth. *)
Lemma lit_0_1_nearest : F32.lit_0_1 = F32.div (F32.of_Z 1) (F32.of_Z 10).
Proof. vm_compute. reflexivity. Qed.

Lemma unsigned_tenth_sweep :
  all_in 0 65535
    (fun raw => tenth_of raw (F32.mul (F32.of_Z raw) F32.lit_0_1)) = true.
Proof. vm_compute. reflexivity. Qed.

Lemma signed_tenth_sweep :
  all_in (-32768) (-1)
    (fun raw => tenth_of raw (F32.mul (F32.of_Z raw) F32.lit_0_1)) = true.
Proof. vm_compute. reflexivity. Qed.

Lemma tenth_of_any (raw : Z) :
  -32768 <= raw <= 65535 ->
  tenth_of raw (F32.mul (F32.of_Z raw) F32.lit_0_1) = true.
Proof.
  intros Hraw. destruct (Z.lt_ge_cases raw 0) as [Hneg | Hpos].
  - apply (all_in_spec _ _ _ signed_tenth_sweep). lia.
  - apply (all_in_spec _ _ _ unsigned_tenth_sweep). lia.
Qed.

(** C8, as the claim states it, fails at the voltage frame [0xEB,0x00,0x80]:
    the sketch reads 3276.8 V from the unsigned pattern 32768, not the
    product of the signed value -32768 and 0.1. *)
Lemma voltage_is_not_signed :
  TeensyLogger.interpretBamocarMessage (wire 0x181 3 0xEB 0x00 0x80)
  = DCBusVoltage (S754_finite false 13421773 (-12))
  /\ TeensyLogger.interpretBamocarMessage (wire 0x181 3 0xEB 0x00 0x80)
     <> DCBusVoltage
          (F32.mul (F32.of_Z (to_int16 (raw16 (wire 0x181 3 0xEB 0x00 0x80))))
                   F32.lit_0_1).
Proof. split; [reflexivity | vm_compute; discriminate]. Qed.

(** C8, amended: a VOLTAGE frame (register 0xEB) decodes to the unsigned
    little-endian 16-bit value of bytes 1 and 2 multiplied by [0.1f], in both
    Teensy sketches; a CURRENT frame (register 0x5F) decodes, in the logger
    sketch, to the signed value multiplied by [0.1f]; both products are
    within 1/2000 of a tenth of the raw value; and the frame
    [0xEB,0x64,0x00] with identifier 0x181 decodes to 10.0 V. *)
Theorem voltage_unsigned_current_signed_tenths :
  (forall (e r : bool) (l b1 b2 : Z) (rest : list Z),
      0 <= b1 < 256 -> 0 <= b2 < 256 ->
      let raw := b1 + 256 * b2 in
      let volts := F32.mul (F32.of_Z raw) F32.lit_0_1 in
      TeensyLogger.interpretBamocarMessage
        (mkFrame 0x181 e r l (0xEB :: b1 :: b2 :: rest)) = DCBusVoltage volts
      /\ TeensyHeadless.interpretBamocarMessage
           (mkFrame 0x181 e r l (0xEB :: b1 :: b2 :: rest)) = DCBusVoltage volts
      /\ tenth_of raw volts = true)
  /\ (forall (e r : bool) (l b1 b2 : Z) (rest : list Z),
         0 <= b1 < 256 -> 0 <= b2 < 256 ->
         let raw := to_int16 (b1 + 256 * b2) in
         let amps := F32.mul (F32.of_Z raw) F32.lit_0_1 in
         TeensyLogger.interpretBamocarMessage
           (mkFrame 0x181 e r l (0x5F :: b1 :: b2 :: rest)) = ActualCurrent amps
         /\ tenth_of raw amps = true)
  /\ TeensyLogger.interpretBamocarMessage (wire 0x181 3 0xEB 0x64 0x00)
     = DCBusVoltage (F32.of_Z 10).
Proof.
  split; [| split].
  - intros e r l b1 b2 rest H1 H2 raw volts.
    assert (Hraw : raw16 (mkFrame 0x181 e r l (0xEB :: b1 :: b2 :: rest)) = raw)
      by now apply raw16_bytes.
    split; [| split].
    + change (TeensyLogger.interpretBamocarMessage
                (mkFrame 0x181 e r l (0xEB :: b1 :: b2 :: rest)))
        with (DCBusVoltage
                (F32.mul
                   (F32.of_Z
                      (to_uint16
                         (raw16 (mkFrame 0x181 e r l (0xEB :: b1 :: b2 :: rest)))))
                   F32.lit_0_1)).
      rewrite Hraw, to_uint16_small by (unfold raw; lia). reflexivity.
    + change (TeensyHeadless.interpretBamocarMessage
                (mkFrame 0x181 e r l (0xEB :: b1 :: b2 :: rest)))
        with (DCBusVoltage
                (F32.mul
                   (F32.of_Z
                      (raw16 (mkFrame 0x181 e r l (0xEB :: b1 :: b2 :: rest))))
                   F32.lit_0_1)).
      rewrite Hraw. reflexivity.
    + apply tenth_of_any. unfold raw. lia.
  - intros e r l b1 b2 rest H1 H2 raw amps.
    assert (Hraw : raw16 (mkFrame 0x181 e r l (0x5F :: b1 :: b2 :: rest))
                   = b1 + 256 * b2) by now apply raw16_bytes.
    split.
    + change (TeensyLogger.interpretBamocarMessage
                (mkFrame 0x181 e r l (0x5F :: b1 :: b2 :: rest)))
        with (ActualCurrent
                (F32.mul
                   (F32.of_Z
                      (to_int16
                         (raw16 (mkFrame 0x181 e r l (0x5F :: b1 :: b2 :: rest)))))
                   F32.lit_0_1)).
      rewrite Hraw. reflexivity.
    + apply tenth_of_any. unfold raw, to_int16.
      pose proof (Z.mod_pos_bound (b1 + 256 * b2 + 32768) 65536). lia.
  - reflexivity.
Qed.

Lemma voltage_unsigned_current_signed_tenths_witness :
  TeensyLogger.interpretBamocarMessage (wire 0x181 3 0xEB 0x64 0x00)
  = DCBusVoltage (F32.mul (F32.of_Z (0x64 + 256 * 0x00)) F32.lit_0_1)
  /\ TeensyLogger.interpretBamocarMessage (wire 0x181 3 0x5F 0x9C 0xFF)
     = ActualCurrent (F32.mul (F32.of_Z (to_int16 (0x9C + 256 * 0xFF)))
                              F32.lit_0_1).
Proof.
  destruct voltage_unsigned_current_signed_tenths as [HV [HC _]].
  split.
  - apply (HV false false 3 0x64 0x00 [0; 0; 0; 0; 0]); lia.
  - apply (HC false false 3 0x9C 0xFF [0; 0; 0; 0; 0]); lia.
Defined.

(** ** Torque scalers *)

Lemma abs_is_Z_abs (x : Z) : abs x = Z.abs x.
Proof. unfold abs. destruct (Z.ltb_spec 0 x); lia. Qed.

Lemma maxTorque_value : maxTorque = 16383 /\ maxTorque = 50 * 32767 / 100.
Proof. split; reflexivity. Qed.

(** The bidirectional scaler stays within the cap for every reading. *)
Lemma bidirectional_clamped (rawPot : Z) :
  - maxTorque <= DueSender.torqueCommand rawPot <= maxTorque.
Proof.
  unfold DueSender.torqueCommand.
  set (s := Z.quot _ DueSender.ANALOG_CENTER). clearbody s.
  change DueSender.MAX_TORQUE_COMMAND with 16383.
  change maxTorque with 16383.
  destruct (Z.ltb_spec 16383 s); [rewrite to_int16_small; lia |].
  destruct (Z.ltb_spec s (Z.opp 16383)); rewrite to_int16_small; lia.
Qed.

(** The scaler of the Due interactive sketch clamps to the full scale. *)
Lemma due_interactive_clamped (potValue : Z) :
  0 <= DueInteractive.updateTorqueFromPot potValue <= 32767.
Proof.
  unfold DueInteractive.updateTorqueFromPot.
  set (s := to_int32 _). clearbody s.
  change DueInteractive.TORQUE_MAX with 32767.
  destruct (Z.ltb_spec 32767 s); [rewrite to_int16_small; lia |].
  destruct (Z.ltb_spec s 0); rewrite to_int16_small; lia.
Qed.

Lemma due_interactive_sweep :
  all_in 0 4095
    (fun raw => let r := DueInteractive.updateTorqueFromPot raw in
                (0 <=? r) && (r <=? 10922)) = true.
Proof. vm_compute. reflexivity. Qed.

Lemma logger_sweep :
  all_in 0 4095
    (fun raw => let r := TeensyLogger.updateTorqueFromPot raw in
                (0 <=? r) && (r <=? 16383)) = true.
Proof. vm_compute. reflexivity. Qed.

Lemma headless_sweep :
  all_in 0 2930
    (fun raw => let r := TeensyHeadless.updateTorqueFromPot raw in
                (0 <=? r) && (r <=? 16383)) = true.
Proof. vm_compute. reflexivity. Qed.

Lemma in_range_true (lo hi r : Z) :
  (lo <=? r) && (r <=? hi) = true -> lo <= r <= hi.
Proof. intros H. apply andb_true_iff in H as [H1 H2]. lia. Qed.

(** *** Readings beyond the rest position of the pedal

    A reading above 2930 makes the percentage negative; the first clamp of
    the headless scaler then replaces it by zero. *)

Lemma round_aux_sign (s : bool) (m e : Z) (l : location) :
  match binary_round_aux F32.prec F32.emax s m e l with
  | S754_zero s' | S754_infinity s' | S754_finite s' _ _ => s' = s
  | S754_nan => True
  end.
Proof.
  unfold binary_round_aux.
  destruct (shr_fexp F32.prec F32.emax m e l) as [mrs' e'].
  destruct (shr_fexp F32.prec F32.emax _ e' loc_Exact) as [mrs'' e''].
  destruct (shr_m mrs''); [reflexivity | | exact I].
  destruct (e'' <=? F32.emax - F32.prec); reflexivity.
Qed.

Lemma round_aux_not_positive (m e : Z) (l : location) :
  not_positive (binary_round_aux F32.prec F32.emax true m e l).
Proof.
  pose proof (round_aux_sign true m e l) as H.
  destruct (binary_round_aux F32.prec F32.emax true m e l);
    cbn in *; subst; exact I.
Qed.

Lemma of_Z_negative (p : positive) : not_positive (F32.of_Z (Zneg p)).
Proof.
  unfold F32.of_Z, binary_normalize, binary_round.
  destruct (shl_align _ _ _) as [mz ez]. apply round_aux_not_positive.
Qed.

Lemma mul_not_positive (x : F32.float) (m : positive) (e : Z) :
  not_positive x -> not_positive (F32.mul x (S754_finite false m e)).
Proof.
  destruct x as [[|] | [|] | | [|] mx ex]; cbn; intros H;
    try exact I; try contradiction.
  apply round_aux_not_positive.
Qed.

Lemma div_not_positive (x : F32.float) (m : positive) (e : Z) :
  not_positive x -> not_positive (F32.div x (S754_finite false m e)).
Proof.
  destruct x as [[|] | [|] | | [|] mx ex]; cbn; intros H;
    try exact I; try contradiction.
  destruct (SFdiv_core_binary _ _ _ _ _ _) as [[mz ez] lz].
  apply round_aux_not_positive.
Qed.

Lemma headless_clamp_scale_not_positive (x : F32.float) :
  not_positive x -> headless_clamp_scale x = 0.
Proof.
  destruct x as [[|] | [|] | | [|] mx ex]; cbn; intros H;
    try contradiction; reflexivity.
Qed.

Lemma headless_beyond_rest (potValue : Z) :
  2930 < potValue <= 2147483647 ->
  TeensyHeadless.updateTorqueFromPot potValue = 0.
Proof.
  intros H.
  change (TeensyHeadless.updateTorqueFromPot potValue)
    with (headless_clamp_scale (TeensyHeadless.potPercent_of potValue)).
  apply headless_clamp_scale_not_positive.
  unfold TeensyHeadless.potPercent_of.
  rewrite to_int32_small by lia.
  destruct (2930 - potValue) as [| p | p] eqn:E; try lia.
  change (F32.of_Z (2930 - 1860)) with (S754_finite false 8765440 (-13)).
  change (F32.of_Z 100) with (S754_finite false 13107200 (-17)).
  apply div_not_positive, mul_not_positive, of_Z_negative.
Qed.

(** The headless scaler stays within the cap for every non-negative
    reading. *)
Lemma headless_clamped (potValue : Z) :
  0 <= potValue <= 2147483647 ->
  0 <= TeensyHeadless.updateTorqueFromPot potValue <= maxTorque.
Proof.
  intros H. change maxTorque with 16383.
  destruct (Z.le_gt_cases potValue 2930) as [Hlow | Hhigh].
  - apply in_range_true.
    apply (all_in_spec _ _ _ headless_sweep potValue). lia.
  - rewrite headless_beyond_rest; lia.
Qed.

(** C2, as the claim states it, fails beyond the range of the converter: the
    logger sketch has no clamp and returns 16387 for the reading 4096, and
    the Due interactive sketch clamps to the full scale, not to the cap. *)
Lemma unidirectional_cap_exceeded :
  TeensyLogger.updateTorqueFromPot 4096 = 16387
  /\ DueInteractive.updateTorqueFromPot 12285 = 32767
  /\ ~ (0 <= TeensyLogger.updateTorqueFromPot 4096 <= maxTorque).
Proof.
  split; [vm_compute; reflexivity | split; [vm_compute; reflexivity |]].
  replace (TeensyLogger.updateTorqueFromPot 4096) with 16387
    by (vm_compute; reflexivity).
  change maxTorque with 16383. lia.
Qed.

(** C2, amended: the bidirectional scaler returns a value in
    [-maxTorque, maxTorque] for every reading; the headless unidirectional
    scaler returns a value in [0, maxTorque] for every non-negative reading;
    the logger scaler, which has no clamp, does so for the readings 0..4095
    of the 12-bit converter; the Due interactive scaler returns a value in
    [0, 32767] for every reading and at most 10922 for the readings 0..4095.
    All four are functions without an error path. *)
Theorem torque_scalers_bounded :
  (forall raw, - maxTorque <= DueSender.torqueCommand raw <= maxTorque)
  /\ (forall raw, 0 <= raw <= 2147483647 ->
        0 <= TeensyHeadless.updateTorqueFromPot raw <= maxTorque)
  /\ (forall raw, 0 <= raw <= 4095 ->
        0 <= TeensyLogger.updateTorqueFromPot raw <= maxTorque)
  /\ (forall raw, 0 <= DueInteractive.updateTorqueFromPot raw <= 32767)
  /\ (forall raw, 0 <= raw <= 4095 ->
        0 <= DueInteractive.updateTorqueFromPot raw <= 10922)
  /\ 10922 <= maxTorque.
Proof.
  split; [exact bidirectional_clamped |].
  split; [exact headless_clamped |].
  split.
  { intros raw H. change maxTorque with 16383. apply in_range_true.
    apply (all_in_spec _ _ _ logger_sweep raw H). }
  split; [exact due_interactive_clamped |].
  split.
  { intros raw H. apply in_range_true.
    apply (all_in_spec _ _ _ due_interactive_sweep raw H). }
  change maxTorque with 16383. lia.
Qed.

Lemma torque_scalers_bounded_witness :
  0 <= TeensyHeadless.updateTorqueFromPot 70000 <= maxTorque
  /\ 0 <= TeensyLogger.updateTorqueFromPot 2048 <= maxTorque
  /\ 0 <= DueInteractive.updateTorqueFromPot 2048 <= 10922.
Proof.
  destruct torque_scalers_bounded as [_ [HH [HL [_ [HD _]]]]].
  split; [apply (HH 70000); lia |].
  split; [apply (HL 2048); lia | apply (HD 2048); lia].
Defined.

(** C9: a reading within the deadzone of the centre gives the torque
    command 0, and the frame that is sent carries the bytes 0x00 0x00. *)
Theorem deadzone_gives_zero (rawPot : Z) :
  Z.abs (rawPot - DueSender.ANALOG_CENTER) <= DueSender.ANALOG_DEADZONE ->
  DueSender.torqueCommand rawPot = 0
  /\ frames (snd (DueSender.sendTorqueFrame rawPot DueSender.torqueFrame))
     = [wire 0x201 3 0x90 0x00 0x00].
Proof.
  intros H. change DueSender.ANALOG_CENTER with 512 in H.
  change DueSender.ANALOG_DEADZONE with 8 in H.
  assert (Hzero : DueSender.torqueCommand rawPot = 0).
  { unfold DueSender.torqueCommand.
    change DueSender.ANALOG_CENTER with 512.
    change DueSender.ANALOG_DEADZONE with 8.
    rewrite (to_int32_small (rawPot - 512)), abs_is_Z_abs by lia.
    destruct (Z.leb_spec (Z.abs (rawPot - 512)) 8) as [_ | Hgt]; [| lia].
    reflexivity. }
  split; [assumption |].
  unfold DueSender.sendTorqueFrame. rewrite Hzero. reflexivity.
Qed.

Lemma deadzone_gives_zero_witness :
  Z.abs (505 - DueSender.ANALOG_CENTER) <= DueSender.ANALOG_DEADZONE
  /\ DueSender.torqueCommand 505 = 0.
Proof.
  split; [vm_compute; discriminate |].
  apply (deadzone_gives_zero 505). vm_compute. discriminate.
Defined.

(** ** Command sequencer: enable and disable *)

(** The enable paths of the other sketches: in the two Teensy sketches
    [enableDrive] sends Lock, waits 100 ms and sends Enable, and these are
    the only frames of register 0x51 in step 5; the enable sequence of the
    Due sender sketches does the same between two pauses of 2 s. *)
Lemma enable_lock_then_enable :
  timeline TeensyLogger.enableDrive
  = [Sent lockCommand; Delay 100; Sent enableCommand]
  /\ timeline TeensyHeadless.enableDrive
     = [Sent lockCommand; Delay 100; Sent enableCommand]
  /\ filter is_reg51 (frames (TeensyLogger.executeStep 5))
     = [lockCommand; enableCommand]
  /\ (forall g, filter is_reg51 (frames (snd (TeensyHeadless.executeStep 5 g)))
                = [lockCommand; enableCommand])
  /\ timeline DueSender.enableSequence
     = [Delay 2000; Sent lockCommand; Delay 100; Sent enableCommand; Delay 2000].
Proof. repeat split; reflexivity. Qed.

(** C1, at the enable step of the Due interactive sketch, reached by three
    key presses after reset: the sketch sends the Enable frame alone, with no
    Lock frame and no pause before it, where the claim expects Lock,
    [delay(100)], Enable.  The two presses before it send only the two
    register requests, so no Lock has reached the drive when it is enabled,
    and the enable step does the same from every state.  The enable paths of
    the two Teensy sketches and of the Due sender sketches send Lock, wait
    100 ms and send Enable. *)
Theorem due_interactive_enable_single_frame :
  frames (snd (due_presses 1 DueInteractive.initial))
  = [wire 0x201 3 0x3D 0x40 0x00]
  /\ frames (snd (due_presses 2 DueInteractive.initial))
     = [wire 0x201 3 0x3D 0x30 100]
  /\ DueInteractive.currentStep (fst (due_presses 3 DueInteractive.initial)) = 3
  /\ timeline (snd (due_presses 3 DueInteractive.initial))
     = [Sent enableCommand]
  /\ List.length
       (filter is_reg51 (frames (snd (due_presses 3 DueInteractive.initial))))
     <> 2%nat
  /\ (forall g, timeline (snd (DueInteractive.executeStep 3 g))
                = [Sent enableCommand])
  /\ timeline TeensyLogger.enableDrive
     = [Sent lockCommand; Delay 100; Sent enableCommand]
  /\ timeline TeensyHeadless.enableDrive
     = [Sent lockCommand; Delay 100; Sent enableCommand]
  /\ timeline DueSender.enableSequence
     = [Delay 2000; Sent lockCommand; Delay 100; Sent enableCommand; Delay 2000].
Proof.
  do 4 (split; [reflexivity |]).
  split; [vm_compute; discriminate |].
  split; [intros g; reflexivity |].
  repeat split; reflexivity.
Qed.

Lemma headless_read_keeps_step (queue : list Frame) :
  forall g, TeensyHeadless.currentStep (fst (TeensyHeadless.readCanMessages queue g))
            = TeensyHeadless.currentStep g.
Proof.
  induction queue as [| msg rest IH]; intros g; [reflexivity |].
  cbn [TeensyHeadless.readCanMessages].
  destruct (TeensyHeadless.is_status msg);
    match goal with
    | |- context [TeensyHeadless.readCanMessages rest ?g'] =>
        specialize (IH g'); destruct (TeensyHeadless.readCanMessages rest g')
    end; cbn [fst] in *; rewrite IH; reflexivity.
Qed.

Lemma headless_await_keeps_step (w : TeensyHeadless.Bus) (startTime : Z) :
  forall fuel k clock g g' clock' t,
    TeensyHeadless.awaitOnline fuel w k startTime clock g = Some (g', clock', t) ->
    TeensyHeadless.currentStep g' = TeensyHeadless.currentStep g.
Proof.
  induction fuel as [| fuel IH]; intros k clock g g' clock' t;
    cbn [TeensyHeadless.awaitOnline];
    destruct (negb (TeensyHeadless.bamocarOnline g)
              && (to_uint32 (clock - startTime) <? 10000));
    try discriminate; try (intros [= <- _ _]; reflexivity).
  pose proof (headless_read_keeps_step (TeensyHeadless.rx w k) g) as Hread.
  destruct (TeensyHeadless.readCanMessages (TeensyHeadless.rx w k) g) as [g1 t2].
  cbn [fst] in Hread.
  destruct (TeensyHeadless.awaitOnline fuel w (S k) startTime _ g1)
    as [[[g2 c2] t3] |] eqn:E; [| discriminate].
  intros [= <- _ _]. rewrite (IH _ _ _ _ _ _ E). exact Hread.
Qed.

(** [setup] of the headless sketch stops at step 1 when the drive stays
    silent and ends in step 7 otherwise. *)
Lemma headless_setup_step (fuel : nat) (w : TeensyHeadless.Bus)
      (pedal : nat -> Z) (startTime : Z) :
  match TeensyHeadless.setup fuel w pedal startTime with
  | TeensyHeadless.Ready g _ => TeensyHeadless.currentStep g = 7
  | TeensyHeadless.Aborted g _ => TeensyHeadless.currentStep g = 1
  | TeensyHeadless.Waiting => True
  end.
Proof.
  unfold TeensyHeadless.setup.
  change (TeensyHeadless.executeStep 1 TeensyHeadless.initial)
    with (TeensyHeadless.mkGlobals 1 0 0 false,
          snd (TeensyHeadless.executeStep 1 TeensyHeadless.initial)).
  cbv iota beta.
  destruct (TeensyHeadless.awaitOnline fuel w 0 startTime startTime _)
    as [[[g c] t2] |] eqn:E; [| exact I].
  apply headless_await_keeps_step in E. cbn in E.
  destruct (negb (TeensyHeadless.bamocarOnline g)); [exact E |].
  unfold TeensyHeadless.run. cbn [TeensyHeadless.executeStep].
  destruct (TeensyHeadless.awaitPedal fuel pedal 10 _); [reflexivity | exact I].
Qed.

Lemma headless_loop_keeps_step (e : Tick) (g : TeensyHeadless.Globals) :
  TeensyHeadless.currentStep (fst (TeensyHeadless.loop e g))
  = TeensyHeadless.currentStep g.
Proof.
  unfold TeensyHeadless.loop.
  pose proof (headless_read_keeps_step (inbox e) g) as Hread.
  destruct (TeensyHeadless.readCanMessages (inbox e) g) as [g1 t1].
  cbn [fst] in Hread.
  destruct ((TeensyHeadless.currentStep g1 =? 7) && _); exact Hread.
Qed.

(** In [executeStep] of the headless sketch the call of [disableDrive] in
    case 8 is commented out: the step sends nothing. *)
Lemma headless_step8_sends_nothing (g : TeensyHeadless.Globals) :
  frames (snd (TeensyHeadless.executeStep 8 g)) = [].
Proof. reflexivity. Qed.

(** C5: the disable step of the two key-driven sketches (step 8 of the
    Teensy logger, step 6 of the Due interactive sketch) sends the single
    frame Lock (register 0x51, flag 0x04), and so does [disableDrive] in
    every sketch that defines it.  The headless sketch never reaches its
    disable step: [setup] ends in step 1 or 7 and [loop] keeps the step. *)
Theorem disable_sends_lock_only :
  frames (TeensyLogger.executeStep 8) = [lockCommand]
  /\ (forall g, frames (snd (DueInteractive.executeStep 6 g)) = [lockCommand])
  /\ frames TeensyLogger.disableDrive = [lockCommand]
  /\ frames TeensyHeadless.disableDrive = [lockCommand]
  /\ frames DueInteractive.disableDrive = [lockCommand]
  /\ (forall fuel w pedal startTime,
        match TeensyHeadless.setup fuel w pedal startTime with
        | TeensyHeadless.Ready g _ => TeensyHeadless.currentStep g = 7
        | TeensyHeadless.Aborted g _ => TeensyHeadless.currentStep g = 1
        | TeensyHeadless.Waiting => True
        end)
  /\ (forall e g, TeensyHeadless.currentStep (fst (TeensyHeadless.loop e g))
                  = TeensyHeadless.currentStep g).
Proof.
  repeat split; try reflexivity.
  - apply headless_setup_step.
  - apply headless_loop_keeps_step.
Qed.

(** ** Outbound command frames *)

Lemma command_frame_wire (reg b1 b2 : Z) : command_frame reg (wire 0x201 3 reg b1 b2).
Proof. repeat split. Qed.

(** Writing a data byte other than byte 0 keeps a command frame a command
    frame of the same register. *)
Lemma command_frame_set_buf (reg : Z) (i : nat) (v : Z) (msg : Frame) :
  command_frame reg msg -> command_frame reg (set_buf (S i) v msg).
Proof.
  intros (Hid & Hext & Hlen & Hreg). repeat split; try assumption.
  unfold byte_at, set_buf in *. cbn [buf].
  destruct (buf msg); [destruct i |]; assumption.
Qed.

Lemma frames_app (t1 t2 : list Event) : frames (t1 ++ t2) = frames t1 ++ frames t2.
Proof.
  induction t1 as [| ev t1 IH]; [reflexivity |].
  destruct ev; cbn [frames app]; now rewrite IH.
Qed.

Lemma pot_run_command_frames (raws : list Z) :
  forall frame, command_frame 0x90 frame ->
                Forall (command_frame 0x90) (frames (pot_run raws frame)).
Proof.
  induction raws as [| raw rest IH]; intros frame Hframe; [constructor |].
  cbn [pot_run DueSender.loop DueSender.triggered existsb].
  unfold DueSender.sendTorqueFrame.
  set (frame' := set_buf 2 _ (set_buf 1 _ frame)).
  assert (Hframe' : command_frame 0x90 frame')
    by (subst frame'; now do 2 apply command_frame_set_buf).
  cbn [frames app]. constructor; [assumption |].
  change (Forall (command_frame 0x90) (frames (pot_run rest frame'))).
  now apply IH.
Qed.

Ltac command_frames :=
  intros; cbn;
  repeat (apply Forall_cons; [repeat split |]); apply Forall_nil.

(** C10: every frame sent by a send helper of the Teensy logger, Teensy
    headless and Due interactive sketches, for every argument, and every
    frame sent by the Due sender sketches, has identifier 0x201, standard
    addressing, length 3 and the register of the helper in byte 0. *)
Theorem outbound_frames_are_commands :
  (* Teensy logger *)
  (forall i, Forall (command_frame 0x3D) (frames (TeensyLogger.requestStatusCyclic i)))
  /\ Forall (command_frame 0x3D) (frames TeensyLogger.requestStatusOnce)
  /\ (forall i, Forall (command_frame 0x3D) (frames (TeensyLogger.requestSpeedCyclic i)))
  /\ Forall (command_frame 0x3D) (frames TeensyLogger.requestDCBusOnce)
  /\ Forall (command_frame 0x8E) (frames TeensyLogger.clearErrors)
  /\ (forall ms, Forall (command_frame 0xD0) (frames (TeensyLogger.configureCanTimeout ms)))
  /\ Forall (command_frame 0x51) (frames TeensyLogger.enableDrive)
  /\ Forall (command_frame 0x51) (frames TeensyLogger.disableDrive)
  /\ (forall tq, Forall (command_frame 0x90) (frames (TeensyLogger.sendTorqueCommand tq)))
  (* Teensy headless *)
  /\ (forall i, Forall (command_frame 0x3D) (frames (TeensyHeadless.requestStatusCyclic i)))
  /\ Forall (command_frame 0x3D) (frames TeensyHeadless.requestStatusOnce)
  /\ (forall i, Forall (command_frame 0x3D) (frames (TeensyHeadless.requestSpeedCyclic i)))
  /\ Forall (command_frame 0x3D) (frames TeensyHeadless.requestDCBusOnce)
  /\ Forall (command_frame 0x8E) (frames TeensyHeadless.clearErrors)
  /\ (forall ms, Forall (command_frame 0xD0) (frames (TeensyHeadless.configureCanTimeout ms)))
  /\ Forall (command_frame 0x51) (frames TeensyHeadless.enableDrive)
  /\ Forall (command_frame 0x51) (frames TeensyHeadless.disableDrive)
  /\ (forall tq, Forall (command_frame 0x90) (frames (TeensyHeadless.sendTorqueCommand tq)))
  (* Due interactive *)
  /\ Forall (command_frame 0x3D) (frames DueInteractive.requestStatusOnce)
  /\ (forall i, Forall (command_frame 0x3D) (frames (DueInteractive.requestSpeedCyclic i)))
  /\ Forall (command_frame 0x51) (frames DueInteractive.enableDrive)
  /\ Forall (command_frame 0x51) (frames DueInteractive.disableDrive)
  /\ (forall tq, Forall (command_frame 0x90) (frames (DueInteractive.sendTorqueCommand tq)))
  (* Due sender *)
  /\ Forall (command_frame 0x51) (frames DueSender.enableSequence)
  /\ Forall (command_frame 0x90) (frames DueSender.sendFixedTorqueFrame)
  /\ (forall raws, Forall (command_frame 0x90) (frames (pot_run raws DueSender.torqueFrame))).
Proof.
  repeat match goal with |- _ /\ _ => split end; try solve [command_frames].
  intros raws. apply pot_run_command_frames. repeat split.
Qed.

(** ** Command sequencer: behaviour past the last step *)

Lemma logger_executeStep_default (step : Z) :
  step < 1 \/ 9 < step ->
  TeensyLogger.executeStep step = [Serial "All steps complete." []].
Proof.
  intros H. destruct step as [| p | p]; [reflexivity | | reflexivity].
  do 4 (destruct p as [p | p |]; try reflexivity; try lia).
Qed.

Lemma due_executeStep_default (step : Z) (g : DueInteractive.Globals) :
  step < 1 \/ 6 < step ->
  DueInteractive.executeStep step g
  = (g, [Serial "Sequence complete. Reset the board to restart." []]).
Proof.
  intros H. destruct step as [| p | p]; [reflexivity | | reflexivity].
  do 3 (destruct p as [p | p |]; try reflexivity; try lia).
Qed.

(** In the logger sketch a key press past step 9 only reports completion,
    as long as the [int] counter does not overflow. *)
Lemma logger_past_last_step (g : TeensyLogger.Globals) :
  9 <= TeensyLogger.currentStep g < 2147483647 ->
  TeensyLogger.handleSerialInput true g
  = (TeensyLogger.mkGlobals (TeensyLogger.currentStep g + 1)
       (TeensyLogger.currentTorque g) (TeensyLogger.lastTorqueSend g),
     [Serial "All steps complete." []]).
Proof.
  intros H. unfold TeensyLogger.handleSerialInput.
  rewrite to_int32_small by lia.
  rewrite logger_executeStep_default by lia. reflexivity.
Qed.

(** From step 9 on, every further key press of the logger sketch sends no
    frame and moves the counter one up. *)
Lemma logger_sequence_terminal (n : nat) :
  forall g, TeensyLogger.currentStep g = 9 ->
            9 + Z.of_nat (S n) <= 2147483647 ->
            logger_presses (S n) g
            = (TeensyLogger.mkGlobals (9 + Z.of_nat (S n))
                 (TeensyLogger.currentTorque g) (TeensyLogger.lastTorqueSend g),
               [Serial "All steps complete." []]).
Proof.
  induction n as [| n IH]; intros g Hg Hmax.
  - cbn [logger_presses fst]. rewrite logger_past_last_step by lia.
    rewrite Hg. reflexivity.
  - change (logger_presses (S (S n)) g)
      with (TeensyLogger.handleSerialInput true (fst (logger_presses (S n) g))).
    rewrite IH by (assumption || lia). cbn [fst].
    rewrite logger_past_last_step by (cbn [TeensyLogger.currentStep]; lia).
    cbn [TeensyLogger.currentStep TeensyLogger.currentTorque
         TeensyLogger.lastTorqueSend].
    do 2 f_equal. lia.
Qed.

(** In the Due interactive sketch a key press in the steps 6 to 254 only
    reports completion. *)
Lemma due_past_last_step (g : DueInteractive.Globals) :
  6 <= DueInteractive.currentStep g < 255 ->
  DueInteractive.handleSerialInput true g
  = (DueInteractive.mkGlobals (DueInteractive.currentStep g + 1)
       (DueInteractive.currentTorqueCommand g) (DueInteractive.lastTorqueSend g),
     [Serial "Sequence complete. Reset the board to restart." []]).
Proof.
  intros H. unfold DueInteractive.handleSerialInput.
  rewrite to_uint8_small by lia.
  rewrite due_executeStep_default by lia. reflexivity.
Qed.

(** C6, at 257 key presses after reset in the Due interactive sketch: the
    [uint8_t] step counter wraps, the 256th press executes step 0 and the
    257th press executes step 1 again and sends the STATUS request, where
    the claim expects no frame and no return to an earlier step. *)
Theorem due_sequence_wraps :
  due_presses 256 DueInteractive.initial
  = (DueInteractive.mkGlobals 0 0 0,
     [Serial "Sequence complete. Reset the board to restart." []])
  /\ DueInteractive.currentStep (fst (due_presses 257 DueInteractive.initial)) = 1
  /\ frames (snd (due_presses 257 DueInteractive.initial))
     = [wire 0x201 3 0x3D 0x40 0x00].
Proof. repeat split; vm_compute; reflexivity. Qed.

(** ** Online detection *)

Lemma delayed_app (t1 t2 : list Event) :
  delayed (t1 ++ t2) = delayed t1 + delayed t2.
Proof.
  induction t1 as [| ev t1 IH]; [reflexivity |].
  destruct ev; cbn [delayed app]; rewrite IH; lia.
Qed.

Lemma probes_app (t1 t2 : list Event) :
  TeensyHeadless.probes (t1 ++ t2)
  = TeensyHeadless.probes t1 + TeensyHeadless.probes t2.
Proof.
  unfold TeensyHeadless.probes.
  rewrite frames_app, filter_app, length_app. lia.
Qed.

(** Reading the queue sends nothing and takes no [delay]; it raises the
    online flag exactly when a STATUS reply of at least 3 bytes is queued. *)
Lemma headless_read_events (queue : list Frame) :
  forall g, frames (snd (TeensyHeadless.readCanMessages queue g)) = []
            /\ delayed (snd (TeensyHeadless.readCanMessages queue g)) = 0
            /\ TeensyHeadless.bamocarOnline
                 (fst (TeensyHeadless.readCanMessages queue g))
               = TeensyHeadless.bamocarOnline g
                 || existsb TeensyHeadless.is_status queue.
Proof.
  induction queue as [| msg rest IH]; intros g.
  - cbn. now rewrite orb_false_r.
  - cbn [TeensyHeadless.readCanMessages existsb].
    destruct (TeensyHeadless.is_status msg);
      match goal with
      | |- context [TeensyHeadless.readCanMessages rest ?g'] =>
          destruct (IH g') as (Hf & Hd & Ho);
          destruct (TeensyHeadless.readCanMessages rest g') as [g1 t1]
      end; cbn [fst snd] in *; cbn [TeensyHeadless.logCANFrame frames delayed app];
      rewrite Ho; cbn [TeensyHeadless.bamocarOnline];
      repeat split; try assumption.
    cbn [orb]. now rewrite orb_true_r.
Qed.

Lemma pollTime_mono (w : TeensyHeadless.Bus) :
  (forall k, 0 <= TeensyHeadless.cost w k) ->
  forall j k, pollTime w k <= pollTime w (k + j).
Proof.
  intros Hcost j. induction j as [| j IH]; intros k.
  - rewrite Nat.add_0_r. lia.
  - rewrite Nat.add_succ_r. cbn [pollTime].
    specialize (IH k). specialize (Hcost (k + j)%nat). lia.
Qed.

Section Wait.

Variable w : TeensyHeadless.Bus.
Variables startTime c : Z.
Hypothesis start_nonneg : 0 <= startTime.
Hypothesis no_wrap : startTime + 10100 + c <= 4294967296.
Hypothesis cost_bound : forall k, 0 <= TeensyHeadless.cost w k <= c.

(** One pass of the wait, entered with the flag down and the deadline
    ahead. *)
Lemma await_pass (fuel k : nat) (clock : Z) (g : TeensyHeadless.Globals) :
  TeensyHeadless.bamocarOnline g = false ->
  startTime <= clock < startTime + 10000 ->
  exists g1 t,
    TeensyHeadless.bamocarOnline g1
      = existsb TeensyHeadless.is_status (TeensyHeadless.rx w k)
    /\ TeensyHeadless.probes t = 1
    /\ Z.of_nat (List.length (frames t)) = 1
    /\ TeensyHeadless.awaitOnline (S fuel) w k startTime clock g
       = match TeensyHeadless.awaitOnline fuel w (S k) startTime
                 (clock + 100 + TeensyHeadless.cost w k) g1 with
         | Some (g', clock', t') => Some (g', clock', t ++ t')
         | None => None
         end.
Proof.
  intros Hoff Hclock.
  cbn [TeensyHeadless.awaitOnline].
  rewrite Hoff, to_uint32_small by lia. cbn [negb andb].
  destruct (Z.ltb_spec (clock - startTime) 10000) as [_ | Hge]; [| lia].
  destruct (headless_read_events (TeensyHeadless.rx w k) g) as (Hf & Hd & Ho).
  destruct (TeensyHeadless.readCanMessages (TeensyHeadless.rx w k) g)
    as [g1 t2].
  cbn [fst snd] in Hf, Hd, Ho. rewrite Hoff in Ho. cbn [orb] in Ho.
  exists g1, (TeensyHeadless.requestStatusOnce ++ t2 ++ [Delay 100]).
  split; [assumption |].
  split; [rewrite !probes_app; unfold TeensyHeadless.probes at 2;
          rewrite Hf; reflexivity |].
  split; [rewrite !frames_app, Hf; reflexivity |].
  rewrite !delayed_app, Hd.
  change (delayed TeensyHeadless.requestStatusOnce) with 0.
  change (delayed [Delay 100]) with (100 + 0).
  specialize (cost_bound k).
  rewrite to_uint32_small by lia.
  replace (clock + (0 + (0 + (100 + 0))) + TeensyHeadless.cost w k)
    with (clock + 100 + TeensyHeadless.cost w k) by lia.
  reflexivity.
Qed.

(** No reply ever: the wait ends with the flag down.  [n], the number of
    probes, is the number of passes that started before the deadline. *)
Lemma await_silent :
  (forall k, existsb TeensyHeadless.is_status (TeensyHeadless.rx w k) = false) ->
  forall fuel k clock g,
    TeensyHeadless.bamocarOnline g = false ->
    startTime <= clock < startTime + 10100 + c ->
    10000 - (clock - startTime) <= 100 * Z.of_nat fuel ->
    exists g' clock' t,
      TeensyHeadless.awaitOnline fuel w k startTime clock g
      = Some (g', clock', t)
      /\ TeensyHeadless.bamocarOnline g' = false
      /\ Z.of_nat (List.length (frames t)) = TeensyHeadless.probes t
      /\ 0 <= TeensyHeadless.probes t
      /\ (10000 <= clock - startTime -> TeensyHeadless.probes t = 0)
      /\ (clock - startTime < 10000 ->
          (clock - startTime) + 100 * (TeensyHeadless.probes t - 1) < 10000)
      /\ 10000 <= (clock - startTime) + TeensyHeadless.probes t * (100 + c).
Proof.
  intros Hquiet. induction fuel as [| fuel IH]; intros k clock g Hoff Hclock Hfuel.
  - assert (Hlate : 10000 <= clock - startTime) by lia.
    exists g, clock, []. cbn [TeensyHeadless.awaitOnline].
    rewrite to_uint32_small by lia.
    destruct (Z.ltb_spec (clock - startTime) 10000); [lia |].
    rewrite andb_false_r. change (TeensyHeadless.probes []) with 0.
    repeat split; try assumption; try reflexivity; lia.
  - destruct (Z.lt_ge_cases (clock - startTime) 10000) as [Hearly | Hlate].
    + destruct (await_pass fuel k clock g Hoff) as (g1 & t & Ho & Hp & Hl & Heq);
        [lia |].
      rewrite Hquiet in Ho. specialize (cost_bound k).
      destruct (IH (S k) (clock + 100 + TeensyHeadless.cost w k) g1 Ho)
        as (g' & clock' & t' & Hrun & Hoff' & Hlen & Hn0 & Hzero & Hlast & Hend);
        [lia | lia |].
      exists g', clock', (t ++ t'). rewrite Heq, Hrun.
      rewrite probes_app, frames_app, length_app, Nat2Z.inj_add, Hp, Hl, Hlen.
      repeat split; try assumption; try reflexivity; lia.
    + exists g, clock, []. cbn [TeensyHeadless.awaitOnline].
      rewrite to_uint32_small by lia.
      destruct (Z.ltb_spec (clock - startTime) 10000); [lia |].
      rewrite andb_false_r. change (TeensyHeadless.probes []) with 0.
      repeat split; try assumption; try reflexivity; lia.
Qed.

(** A reply in pass [k + j], after [j] silent passes, with the pass
    starting before the deadline: the wait ends with the flag up. *)
Lemma await_answered :
  forall j fuel k clock g,
    TeensyHeadless.bamocarOnline g = false ->
    startTime <= clock ->
    (forall i, (i < j)%nat ->
       existsb TeensyHeadless.is_status (TeensyHeadless.rx w (k + i)) = false) ->
    existsb TeensyHeadless.is_status (TeensyHeadless.rx w (k + j)) = true ->
    (clock - startTime) + (pollTime w (k + j) - pollTime w k) < 10000 ->
    (j < fuel)%nat ->
    exists g' clock' t,
      TeensyHeadless.awaitOnline fuel w k startTime clock g
      = Some (g', clock', t)
      /\ TeensyHeadless.bamocarOnline g' = true
      /\ TeensyHeadless.probes t = Z.of_nat j + 1.
Proof.
  assert (Hcost : forall k, 0 <= TeensyHeadless.cost w k)
    by (intros k; apply cost_bound).
  induction j as [| j IH]; intros fuel k clock g Hoff Hclock Hquiet Hreply Htime Hfuel;
    (destruct fuel as [| fuel]; [lia |]);
    pose proof (pollTime_mono w Hcost) as Hmono.
  - rewrite Nat.add_0_r in *.
    destruct (await_pass fuel k clock g Hoff) as (g1 & t & Ho & Hp & _ & Heq);
      [lia |].
    rewrite Hreply in Ho.
    exists g1, (clock + 100 + TeensyHeadless.cost w k), (t ++ []).
    rewrite Heq. destruct fuel; cbn [TeensyHeadless.awaitOnline];
      rewrite Ho; cbn [negb andb]; rewrite probes_app, Hp;
      repeat split; try assumption; reflexivity.
  - specialize (Hmono (S j) k) as Hle.
    destruct (await_pass fuel k clock g Hoff) as (g1 & t & Ho & Hp & _ & Heq);
      [lia |].
    rewrite <- (Nat.add_0_r k) in Ho at 1.
    rewrite (Hquiet 0%nat) in Ho by lia.
    rewrite Nat.add_succ_r in Hreply, Htime.
    destruct (IH fuel (S k) (clock + 100 + TeensyHeadless.cost w k) g1 Ho)
      as (g' & clock' & t' & Hrun & Hon & Hn).
    + specialize (Hcost k). lia.
    + intros i Hi. specialize (Hquiet (S i)).
      rewrite Nat.add_succ_r in Hquiet. apply Hquiet. lia.
    + exact Hreply.
    + cbn [Nat.add pollTime] in *. lia.
    + lia.
    + exists g', clock', (t ++ t'). rewrite Heq, Hrun, probes_app, Hp, Hn.
      repeat split; try assumption. lia.
Qed.

End Wait.

(** C7: the wait of [setup] in the headless sketch, with its deadline of
    10000 ms and its pause of 100 ms.  [c] bounds the time a pass spends
    outside [delay].  If no STATUS reply is ever queued, the wait returns
    with the online flag down after at most 100 probes, at least
    10000 / (100 + c) of them, and exactly 100 when the passes cost nothing
    beyond the pause.  If a STATUS reply is queued at a pass that starts
    before the deadline, the wait returns with the flag up. *)
Theorem awaitOnline_bounded_wait
        (w : TeensyHeadless.Bus) (startTime c : Z) (g : TeensyHeadless.Globals) :
  0 <= startTime ->
  startTime + 10100 + c <= 4294967296 ->
  (forall k, 0 <= TeensyHeadless.cost w k <= c) ->
  TeensyHeadless.bamocarOnline g = false ->
  ((forall k, existsb TeensyHeadless.is_status (TeensyHeadless.rx w k) = false) ->
   forall fuel, (100 <= fuel)%nat ->
   exists g' clock' t,
     TeensyHeadless.awaitOnline fuel w 0 startTime startTime g
     = Some (g', clock', t)
     /\ TeensyHeadless.bamocarOnline g' = false
     /\ Z.of_nat (List.length (frames t)) = TeensyHeadless.probes t
     /\ 1 <= TeensyHeadless.probes t <= 100
     /\ 10000 <= TeensyHeadless.probes t * (100 + c)
     /\ (c = 0 -> TeensyHeadless.probes t = 100))
  /\ (forall j,
        (forall i, (i < j)%nat ->
           existsb TeensyHeadless.is_status (TeensyHeadless.rx w i) = false) ->
        existsb TeensyHeadless.is_status (TeensyHeadless.rx w j) = true ->
        pollTime w j < 10000 ->
        forall fuel, (j < fuel)%nat ->
        exists g' clock' t,
          TeensyHeadless.awaitOnline fuel w 0 startTime startTime g
          = Some (g', clock', t)
          /\ TeensyHeadless.bamocarOnline g' = true
          /\ TeensyHeadless.probes t = Z.of_nat j + 1).
Proof.
  intros Hstart Hwrap Hcost Hoff. split.
  - intros Hquiet fuel Hfuel.
    assert (Hc : 0 <= c) by (specialize (Hcost 0%nat); lia).
    destruct (await_silent w startTime c Hstart Hwrap Hcost Hquiet
                           fuel 0%nat startTime g Hoff)
      as (g' & clock' & t & Hrun & Hoff' & Hlen & Hn0 & _ & Hlast & Hend);
      [lia | lia |].
    exists g', clock', t.
    rewrite Z.sub_diag in Hlast, Hend. cbn [Z.add] in Hlast, Hend.
    specialize (Hlast ltac:(lia)).
    assert (Hpos : 1 <= TeensyHeadless.probes t).
    { destruct (Z.eq_dec (TeensyHeadless.probes t) 0) as [Hz | Hnz]; [| lia].
      rewrite Hz in Hend. cbn in Hend. lia. }
    repeat split; try assumption; try lia.
    intros ->. lia.
  - intros j Hquiet Hreply Htime fuel Hfuel.
    apply (await_answered w startTime c Hstart Hwrap Hcost j fuel 0%nat startTime g);
      try assumption; try lia.
    cbn [pollTime Nat.add]. lia.
Qed.

Lemma awaitOnline_bounded_wait_witness :
  (exists g' clock' t,
      TeensyHeadless.awaitOnline 100
        (TeensyHeadless.mkBus (fun _ => []) (fun _ => 0)) 0 1500 1500
        TeensyHeadless.initial
      = Some (g', clock', t)
      /\ TeensyHeadless.bamocarOnline g' = false
      /\ TeensyHeadless.probes t = 100)
  /\ (exists g' clock' t,
         TeensyHeadless.awaitOnline 100
           (TeensyHeadless.mkBus
              (fun k => if (k =? 3)%nat then [wire 0x181 4 0x40 0x81 0x01] else [])
              (fun _ => 7)) 0 1500 1500
           TeensyHeadless.initial
         = Some (g', clock', t)
         /\ TeensyHeadless.bamocarOnline g' = true
         /\ TeensyHeadless.probes t = 4).
Proof.
  split.
  - destruct (awaitOnline_bounded_wait
                (TeensyHeadless.mkBus (fun _ => []) (fun _ => 0)) 1500 0
                TeensyHeadless.initial) as [Hsilent _];
      [lia | lia | intros k; cbn; lia | reflexivity |].
    destruct (Hsilent (fun _ => eq_refl) 100%nat (le_n _))
      as (g' & clock' & t & Hrun & Hoff & _ & _ & _ & Hexact).
    exists g', clock', t. repeat split; [exact Hrun | exact Hoff | exact (Hexact eq_refl)].
  - destruct (awaitOnline_bounded_wait
                (TeensyHeadless.mkBus
                   (fun k => if (k =? 3)%nat then [wire 0x181 4 0x40 0x81 0x01] else [])
                   (fun _ => 7)) 1500 7
                TeensyHeadless.initial) as [_ Hreply];
      [lia | lia | intros k; cbn; lia | reflexivity |].
    apply (Hreply 3%nat).
    + intros i Hi. cbn [TeensyHeadless.rx].
      destruct i as [| [| [| i]]]; [reflexivity | reflexivity | reflexivity | lia].
    + reflexivity.
    + vm_compute. reflexivity.
    + lia.
Defined.

(** ** The main loops past the last step *)

Lemma frames_serial_map (fmt : string) (l : list Z) :
  frames (map (fun b => Serial fmt [b]) l) = [].
Proof. induction l as [| b l IH]; [reflexivity | exact IH]. Qed.

Lemma logger_read_sends_nothing (queue : list Frame) :
  frames (TeensyLogger.readCanMessages queue) = [].
Proof.
  unfold TeensyLogger.readCanMessages.
  induction queue as [| msg rest IH]; [reflexivity |].
  cbn [flat_map]. rewrite frames_app, IH, app_nil_r.
  unfold TeensyLogger.readOne, TeensyLogger.logCANFrame.
  rewrite !frames_app, frames_serial_map.
  destruct ((id msg =? BAMOCAR_TX_ID) && (3 <=? len msg)); [| reflexivity].
  destruct (byte_at msg 0 =? 0x40); reflexivity.
Qed.

Lemma due_read_sends_nothing (queue : list Frame) :
  frames (DueInteractive.readCanMessages queue) = [].
Proof.
  unfold DueInteractive.readCanMessages.
  induction queue as [| msg rest IH]; [reflexivity |].
  cbn [flat_map]. rewrite frames_app, IH, app_nil_r.
  unfold DueInteractive.readOne.
  rewrite !frames_app, frames_serial_map.
  destruct ((id msg =? BAMOCAR_TX_ID) && (3 <=? len msg)
            && (byte_at msg 0 =? 0x40)); reflexivity.
Qed.

(** Past step 9 a pass of the logger's [loop] sends no frame, whether a key
    was pressed or not: the torque cadence runs in step 7 only. *)
Lemma logger_loop_past_last_step (e : Tick) (g : TeensyLogger.Globals) :
  9 <= TeensyLogger.currentStep g < 2147483647 ->
  frames (snd (TeensyLogger.loop e g)) = []
  /\ TeensyLogger.currentStep g
     <= TeensyLogger.currentStep (fst (TeensyLogger.loop e g)).
Proof.
  intros H. unfold TeensyLogger.loop.
  destruct (key e).
  - rewrite logger_past_last_step by assumption.
    cbn [TeensyLogger.currentStep].
    destruct (Z.eqb_spec (TeensyLogger.currentStep g + 1) 7); [lia |].
    cbn [andb fst snd TeensyLogger.currentStep].
    rewrite frames_app, logger_read_sends_nothing. split; [reflexivity | lia].
  - cbn [TeensyLogger.handleSerialInput].
    destruct (Z.eqb_spec (TeensyLogger.currentStep g) 7); [lia |].
    cbn [andb fst snd app]. rewrite logger_read_sends_nothing.
    split; [reflexivity | lia].
Qed.

(** In the steps 6 to 254 a pass of the Due interactive [loop] sends no
    frame. *)
Lemma due_loop_past_last_step (e : Tick) (g : DueInteractive.Globals) :
  6 <= DueInteractive.currentStep g < 255 ->
  frames (snd (DueInteractive.loop e g)) = [].
Proof.
  intros H. unfold DueInteractive.loop.
  destruct (key e).
  - rewrite due_past_last_step by assumption.
    cbn [DueInteractive.currentStep].
    destruct (Z.eqb_spec (DueInteractive.currentStep g + 1) 4); [lia |].
    cbn [andb fst snd]. rewrite frames_app, due_read_sends_nothing. reflexivity.
  - cbn [DueInteractive.handleSerialInput].
    destruct (Z.eqb_spec (DueInteractive.currentStep g) 4); [lia |].
    cbn [andb fst snd app]. apply due_read_sends_nothing.
Qed.

(** * Further properties of the sketches *)

(** ** Round trips of the logger sketch *)

Lemma logger_torque_roundtrip_witness :
  -32768 <= -1234 <= 32767
  /\ TeensyLogger.sendTorqueCommand (-1234)
     = [Sent (wire 0x201 3 0x90 (-1234 mod 256) ((-1234 / 256) mod 256));
        Logged TX (wire 0x201 3 0x90 (-1234 mod 256) ((-1234 / 256) mod 256))
               (SetTorque (-1234))].
Proof. split; [lia | apply (logger_torque_roundtrip (-1234)); lia]. Defined.

Lemma logger_timeout_roundtrip_witness :
  0 <= 2000 <= 65535
  /\ frames (TeensyLogger.configureCanTimeout 2000)
     = [wire 0x201 3 0xD0 (2000 mod 256) ((2000 / 256) mod 256)].
Proof. split; [lia | apply (logger_timeout_roundtrip 2000); lia]. Defined.

(** ** Telemetry decoding of the logger sketch *)

Lemma percent_sweep :
  all_in 0 32768
    (fun raw => percent_of raw (F32.div (F32.of_Z raw) F32.lit_327_67)) = true.
Proof. vm_cast_no_check (eq_refl true). Qed.

(** Rounding, conversion and division commute with the change of sign. *)
Lemma round_aux_opp (s : bool) (m e : Z) (l : location) :
  binary_round_aux F32.prec F32.emax (negb s) m e l
  = SFopp (binary_round_aux F32.prec F32.emax s m e l).
Proof.
  unfold binary_round_aux.
  destruct (shr_fexp F32.prec F32.emax m e l) as [mrs' e'].
  destruct (shr_fexp F32.prec F32.emax _ e' loc_Exact) as [mrs'' e''].
  destruct (shr_m mrs''); [reflexivity | | reflexivity].
  destruct (e'' <=? F32.emax - F32.prec); reflexivity.
Qed.

Lemma of_Z_opp (p : positive) : F32.of_Z (Zneg p) = SFopp (F32.of_Z (Zpos p)).
Proof.
  unfold F32.of_Z, binary_normalize, binary_round.
  destruct (shl_align _ _ _) as [mz ez]. apply (round_aux_opp false).
Qed.

Lemma div_opp (x : F32.float) (m : positive) (e : Z) :
  F32.div (SFopp x) (S754_finite false m e)
  = SFopp (F32.div x (S754_finite false m e)).
Proof.
  destruct x as [s | s | | s mx ex]; try reflexivity; try (destruct s; reflexivity).
  cbn [SFopp]. unfold F32.div, SFdiv.
  destruct (SFdiv_core_binary _ _ _ _ _ _) as [[mz ez] lz].
  rewrite !xorb_false_r. apply round_aux_opp.
Qed.

Lemma percent_of_opp (raw : Z) (v : F32.float) :
  percent_of (- raw) (SFopp v) = percent_of raw v.
Proof.
  unfold percent_of.
  replace (F32.is_finite (SFopp v)) with (F32.is_finite v)
    by (destruct v as [s | s | | s m e]; reflexivity).
  replace (F32.den (SFopp v)) with (F32.den v)
    by (destruct v as [s | s | | s m e]; reflexivity).
  replace (F32.num (SFopp v)) with (- F32.num v)
    by (destruct v as [s | s | | [|] m e]; cbn; try reflexivity; lia).
  f_equal. f_equal. f_equal. lia.
Qed.

Lemma percent_any (raw : Z) :
  -32768 <= raw <= 32767 ->
  percent_of raw (F32.div (F32.of_Z raw) F32.lit_327_67) = true.
Proof.
  intros H. destruct raw as [| p | p].
  - apply (all_in_spec _ _ _ percent_sweep 0). lia.
  - apply (all_in_spec _ _ _ percent_sweep (Zpos p)). lia.
  - rewrite of_Z_opp. unfold F32.lit_327_67. rewrite div_opp.
    change (Zneg p) with (- Zpos p). rewrite percent_of_opp.
    apply (all_in_spec _ _ _ percent_sweep (Zpos p)). lia.
Qed.

Lemma to_int16_range (z : Z) : -32768 <= to_int16 z <= 32767.
Proof.
  unfold to_int16. pose proof (Z.mod_pos_bound (z + 32768) 65536). lia.
Qed.

(** A SPEED frame (register 0x30) decodes to the signed little-endian value
    of bytes 1 and 2, a TORQUE FEEDBACK frame (register 0xA0) to that signed
    value divided by [327.67f], which is within 1/1000 of the percentage
    [100 * raw / 32767]; the length field plays no part. *)
Theorem logger_speed_and_torque_feedback
        (e r : bool) (l b1 b2 : Z) (rest : list Z) :
  0 <= b1 < 256 -> 0 <= b2 < 256 ->
  let raw := to_int16 (b1 + 256 * b2) in
  let percent := F32.div (F32.of_Z raw) F32.lit_327_67 in
  TeensyLogger.interpretBamocarMessage
    (mkFrame 0x181 e r l (0x30 :: b1 :: b2 :: rest)) = SpeedFeedback raw
  /\ TeensyLogger.interpretBamocarMessage
       (mkFrame 0x181 e r l (0xA0 :: b1 :: b2 :: rest)) = TorqueFeedback percent
  /\ percent_of raw percent = true
  /\ -32768 <= raw <= 32767.
Proof.
  intros H1 H2 raw percent.
  assert (Hs : raw16 (mkFrame 0x181 e r l (0x30 :: b1 :: b2 :: rest))
               = b1 + 256 * b2) by now apply raw16_bytes.
  assert (Ht : raw16 (mkFrame 0x181 e r l (0xA0 :: b1 :: b2 :: rest))
               = b1 + 256 * b2) by now apply raw16_bytes.
  pose proof (to_int16_range (b1 + 256 * b2)) as Hraw.
  repeat split; try apply Hraw.
  - change (TeensyLogger.interpretBamocarMessage
              (mkFrame 0x181 e r l (0x30 :: b1 :: b2 :: rest)))
      with (SpeedFeedback
              (to_int16 (raw16 (mkFrame 0x181 e r l (0x30 :: b1 :: b2 :: rest))))).
    now rewrite Hs.
  - change (TeensyLogger.interpretBamocarMessage
              (mkFrame 0x181 e r l (0xA0 :: b1 :: b2 :: rest)))
      with (TorqueFeedback
              (F32.div
                 (F32.of_Z
                    (to_int16
                       (raw16 (mkFrame 0x181 e r l (0xA0 :: b1 :: b2 :: rest)))))
                 F32.lit_327_67)).
    now rewrite Ht.
  - apply percent_any. exact Hraw.
Qed.

Lemma logger_speed_and_torque_feedback_witness :
  TeensyLogger.interpretBamocarMessage (wire 0x181 3 0x30 0x18 0xFC)
  = SpeedFeedback (to_int16 (0x18 + 256 * 0xFC))
  /\ to_int16 (0x18 + 256 * 0xFC) = -1000.
Proof.
  split; [| reflexivity].
  apply (logger_speed_and_torque_feedback false false 3 0x18 0xFC [0; 0; 0; 0; 0]);
    lia.
Defined.

(** Both Teensy interpreters return the empty text for an identifier other
    than 0x201 and 0x181, whatever the data, and name the register of a
    command or reply they do not know.  The headless sketch knows the reply
    registers 0x30, 0x40 and 0xEB only, so it names 0x5F and 0xA0 as well. *)
Theorem interpreters_foreign_and_unknown :
  (forall msg, id msg <> 0x201 -> id msg <> 0x181 ->
     TeensyLogger.interpretBamocarMessage msg = NoText
     /\ TeensyHeadless.interpretBamocarMessage msg = NoText)
  /\ (forall e r l reg rest,
        ~ In reg [0x3D; 0x8E; 0x51; 0x90; 0xD0] ->
        TeensyLogger.interpretBamocarMessage (mkFrame 0x201 e r l (reg :: rest))
        = CommandSent reg
        /\ TeensyHeadless.interpretBamocarMessage (mkFrame 0x201 e r l (reg :: rest))
           = CommandSent reg)
  /\ (forall e r l reg rest,
        ~ In reg [0x30; 0x40; 0xEB; 0x5F; 0xA0] ->
        TeensyLogger.interpretBamocarMessage (mkFrame 0x181 e r l (reg :: rest))
        = ReplyRegister reg)
  /\ (forall e r l reg rest,
        ~ In reg [0x30; 0x40; 0xEB] ->
        TeensyHeadless.interpretBamocarMessage (mkFrame 0x181 e r l (reg :: rest))
        = ReplyRegister reg).
Proof.
  split; [| split; [| split]].
  - intros msg H1 H2.
    unfold TeensyLogger.interpretBamocarMessage,
      TeensyHeadless.interpretBamocarMessage, BAMOCAR_RX_ID, BAMOCAR_TX_ID.
    destruct (Z.eqb_spec (id msg) 0x201); [contradiction |].
    destruct (Z.eqb_spec (id msg) 0x181); [contradiction |].
    split; reflexivity.
  - intros e r l reg rest Hreg. cbn [In] in Hreg.
    unfold TeensyLogger.interpretBamocarMessage,
      TeensyHeadless.interpretBamocarMessage, byte_at.
    cbn [id buf nth]. change (0x201 =? BAMOCAR_RX_ID) with true. cbv iota.
    repeat match goal with
           | |- context [reg =? ?c] =>
               destruct (Z.eqb_spec reg c); [exfalso; apply Hreg; auto 10 |]
           end.
    split; reflexivity.
  - intros e r l reg rest Hreg. cbn [In] in Hreg.
    unfold TeensyLogger.interpretBamocarMessage, byte_at.
    cbn [id buf nth]. change (0x181 =? BAMOCAR_RX_ID) with false.
    change (0x181 =? BAMOCAR_TX_ID) with true. cbv iota.
    repeat match goal with
           | |- context [reg =? ?c] =>
               destruct (Z.eqb_spec reg c); [exfalso; apply Hreg; auto 10 |]
           end.
    reflexivity.
  - intros e r l reg rest Hreg. cbn [In] in Hreg.
    unfold TeensyHeadless.interpretBamocarMessage, byte_at.
    cbn [id buf nth]. change (0x181 =? BAMOCAR_RX_ID) with false.
    change (0x181 =? BAMOCAR_TX_ID) with true. cbv iota.
    repeat match goal with
           | |- context [reg =? ?c] =>
               destruct (Z.eqb_spec reg c); [exfalso; apply Hreg; auto 10 |]
           end.
    reflexivity.
Qed.

Lemma interpreters_foreign_and_unknown_witness :
  TeensyLogger.interpretBamocarMessage (wire 0x7DF 8 0x02 0x01 0x00) = NoText
  /\ TeensyLogger.interpretBamocarMessage (wire 0x181 3 0x49 0x10 0x00)
     = ReplyRegister 0x49
  /\ TeensyHeadless.interpretBamocarMessage (wire 0x181 3 0x5F 0x10 0x00)
     = ReplyRegister 0x5F.
Proof.
  destruct interpreters_foreign_and_unknown
    as [Hforeign [_ [Hreply Hheadless]]].
  split; [| split].
  - apply (Hforeign (wire 0x7DF 8 0x02 0x01 0x00)); cbn; lia.
  - apply (Hreply false false 3 0x49 [0x10; 0x00; 0; 0; 0; 0; 0]).
    cbn [In]. lia.
  - apply (Hheadless false false 3 0x5F [0x10; 0x00; 0; 0; 0; 0; 0]).
    cbn [In]. lia.
Defined.

(** ** Shape of the torque scalers *)

(** A function that does not decrease from one integer to the next does not
    decrease over the interval. *)
Lemma stepwise_monotone (f : Z -> Z) (lo hi : Z) :
  (forall z, lo <= z < hi -> f z <= f (z + 1)) ->
  forall a b, lo <= a -> a <= b -> b <= hi -> f a <= f b.
Proof.
  intros Hstep a b Ha Hab Hb.
  replace b with (a + Z.of_nat (Z.to_nat (b - a))) in * by (rewrite Z2Nat.id; lia).
  induction (Z.to_nat (b - a)) as [| n IH].
  - rewrite Z.add_0_r. lia.
  - rewrite Nat2Z.inj_succ in *.
    replace (a + Z.succ (Z.of_nat n)) with (a + Z.of_nat n + 1) in * by lia.
    specialize (Hstep (a + Z.of_nat n)). lia.
Qed.

Lemma rising_from_spec (f : Z -> Z) :
  forall n z prev,
    rising_from n z prev f = true ->
    forall x, z <= x < z + Z.of_nat n ->
              (if x =? z then prev else f (x - 1)) <= f x.
Proof.
  induction n as [| n IH]; intros z prev Hall x Hx; [lia |].
  cbn [rising_from] in Hall. cbv zeta in Hall.
  apply andb_true_iff in Hall as [Hz Hrest].
  destruct (Z.eqb_spec x z) as [-> | Hne]; [now apply Z.leb_le |].
  assert (Hx' : z + 1 <= x < z + 1 + Z.of_nat n) by lia.
  specialize (IH _ _ Hrest x Hx').
  destruct (Z.eqb_spec x (z + 1)) as [E | _]; [| exact IH].
  subst x. replace (z + 1 - 1) with z by lia. exact IH.
Qed.

Lemma rising_in_spec (lo hi : Z) (f : Z -> Z) :
  rising_in lo hi f = true ->
  forall z, lo <= z < hi -> f z <= f (z + 1).
Proof.
  unfold rising_in. intros Hall z Hz.
  assert (Hz' : lo + 1 <= z + 1 < lo + 1 + Z.of_nat (Z.to_nat (hi - lo)))
    by (rewrite Z2Nat.id; lia).
  pose proof (rising_from_spec f _ _ _ Hall (z + 1) Hz') as H.
  replace (z + 1 - 1) with z in H by lia.
  destruct (Z.eqb_spec (z + 1) (lo + 1)) as [E | _]; [| exact H].
  assert (z = lo) by lia. subst z. exact H.
Qed.

Lemma headless_step_sweep :
  rising_in 0 2930 (fun z => - TeensyHeadless.updateTorqueFromPot z) = true.
Proof. vm_cast_no_check (eq_refl true). Qed.

Lemma headless_full_sweep :
  all_in 0 2395 (fun z => TeensyHeadless.updateTorqueFromPot z =? 16383) = true.
Proof. vm_cast_no_check (eq_refl true). Qed.

Lemma headless_partial_sweep :
  all_in 2396 2929
    (fun z => let r := TeensyHeadless.updateTorqueFromPot z in
              (0 <? r) && (r <? 16383)) = true.
Proof. vm_cast_no_check (eq_refl true). Qed.

(** The headless scaler over the non-negative readings: the full cap up to
    the reading 2395, strictly between 0 and the cap from 2396 to 2929, zero
    from the rest position 2930 on, and never increasing with the reading
    (a lower reading is a deeper press). *)
Theorem headless_scaler_shape :
  (forall pot, 0 <= pot <= 2395 -> TeensyHeadless.updateTorqueFromPot pot = 16383)
  /\ (forall pot, 2396 <= pot <= 2929 ->
        0 < TeensyHeadless.updateTorqueFromPot pot < 16383)
  /\ (forall pot, 2930 <= pot <= 2147483647 ->
        TeensyHeadless.updateTorqueFromPot pot = 0)
  /\ (forall a b, 0 <= a -> a <= b -> b <= 2147483647 ->
        TeensyHeadless.updateTorqueFromPot b <= TeensyHeadless.updateTorqueFromPot a).
Proof.
  assert (Hrest : forall pot, 2930 <= pot <= 2147483647 ->
                              TeensyHeadless.updateTorqueFromPot pot = 0).
  { intros pot H. destruct (Z.eq_dec pot 2930) as [-> | Hne];
      [reflexivity | apply headless_beyond_rest; lia]. }
  split; [| split; [| split]].
  - intros pot H. apply Z.eqb_eq.
    apply (all_in_spec _ _ _ headless_full_sweep pot H).
  - intros pot H.
    pose proof (all_in_spec _ _ _ headless_partial_sweep pot H) as Hp.
    cbv zeta in Hp. apply andb_true_iff in Hp as [Hp1 Hp2]. lia.
  - exact Hrest.
  - intros a b Ha Hab Hb.
    destruct (Z.le_gt_cases 2930 b) as [Hbig | Hsmall].
    + rewrite (Hrest b) by lia.
      pose proof (headless_clamped a ltac:(lia)). lia.
    + enough (- TeensyHeadless.updateTorqueFromPot a
              <= - TeensyHeadless.updateTorqueFromPot b) by lia.
      apply (stepwise_monotone
               (fun z => - TeensyHeadless.updateTorqueFromPot z) 0 2930);
        try lia.
      intros z Hz. apply (rising_in_spec _ _ _ headless_step_sweep z Hz).
Qed.

Lemma headless_scaler_shape_witness :
  TeensyHeadless.updateTorqueFromPot 1860 = 16383
  /\ TeensyHeadless.updateTorqueFromPot 4000 = 0
  /\ TeensyHeadless.updateTorqueFromPot 2700 <= TeensyHeadless.updateTorqueFromPot 2500.
Proof.
  destruct headless_scaler_shape as [Hfull [_ [Hzero Hmono]]].
  split; [apply (Hfull 1860); lia |].
  split; [apply (Hzero 4000); lia | apply (Hmono 2500 2700); lia].
Defined.

Lemma pedal_sweep :
  all_in 0 2930
    (fun z => Bool.eqb (TeensyHeadless.pedal_pressed z) (z <=? 2876)) = true.
Proof. vm_cast_no_check (eq_refl true). Qed.

Lemma ltb_not_positive (y x : F32.float) :
  not_positive x -> F32.ltb (S754_finite false 10485760 (-21)) x = false.
Proof.
  destruct x as [[|] | [|] | | [|] mx ex]; cbn; intros H;
    try contradiction; reflexivity.
Qed.

(** The pedal gate of the headless [setup]: a non-negative reading counts as
    pressed (more than 5 percent) exactly when it is at most 2876. *)
Theorem pedal_pressed_threshold (potValue : Z) :
  0 <= potValue <= 2147483647 ->
  TeensyHeadless.pedal_pressed potValue = (potValue <=? 2876).
Proof.
  intros H. destruct (Z.le_gt_cases potValue 2930) as [Hlow | Hhigh].
  - apply eqb_prop. apply (all_in_spec _ _ _ pedal_sweep potValue). lia.
  - destruct (Z.leb_spec potValue 2876); [lia |].
    unfold TeensyHeadless.pedal_pressed.
    change (F32.of_Z 5) with (S754_finite false 10485760 (-21)).
    apply (ltb_not_positive (F32.of_Z 5)).
    unfold TeensyHeadless.potPercent_of.
    rewrite to_int32_small by lia.
    destruct (2930 - potValue) as [| p | p] eqn:E; try lia.
    change (F32.of_Z (2930 - 1860)) with (S754_finite false 8765440 (-13)).
    change (F32.of_Z 100) with (S754_finite false 13107200 (-17)).
    apply div_not_positive, mul_not_positive, of_Z_negative.
Qed.

Lemma pedal_pressed_threshold_witness :
  TeensyHeadless.pedal_pressed 2900 = (2900 <=? 2876)
  /\ TeensyHeadless.pedal_pressed 3500 = (3500 <=? 2876).
Proof.
  split; [apply (pedal_pressed_threshold 2900) | apply (pedal_pressed_threshold 3500)];
    lia.
Defined.

Lemma logger_step_sweep :
  rising_in 0 4095 TeensyLogger.updateTorqueFromPot = true.
Proof. vm_cast_no_check (eq_refl true). Qed.

Lemma due_step_sweep :
  rising_in 0 4095 DueInteractive.updateTorqueFromPot = true.
Proof. vm_cast_no_check (eq_refl true). Qed.

(** Over the readings 0..4095 of the 12-bit converter the scalers of the
    logger sketch and of the Due interactive sketch never decrease; they
    start at 0 and end at 16383 and 10922. *)
Theorem potentiometer_scalers_monotone :
  (forall a b, 0 <= a -> a <= b -> b <= 4095 ->
     TeensyLogger.updateTorqueFromPot a <= TeensyLogger.updateTorqueFromPot b)
  /\ TeensyLogger.updateTorqueFromPot 0 = 0
  /\ TeensyLogger.updateTorqueFromPot 4095 = 16383
  /\ (forall a b, 0 <= a -> a <= b -> b <= 4095 ->
        DueInteractive.updateTorqueFromPot a <= DueInteractive.updateTorqueFromPot b)
  /\ DueInteractive.updateTorqueFromPot 0 = 0
  /\ DueInteractive.updateTorqueFromPot 4095 = 10922.
Proof.
  split; [| split; [| split; [| split; [| split]]]].
  - intros a b Ha Hab Hb.
    apply (stepwise_monotone TeensyLogger.updateTorqueFromPot 0 4095); try lia.
    intros z Hz. apply (rising_in_spec _ _ _ logger_step_sweep z Hz).
  - vm_compute. reflexivity.
  - vm_compute. reflexivity.
  - intros a b Ha Hab Hb.
    apply (stepwise_monotone DueInteractive.updateTorqueFromPot 0 4095); try lia.
    intros z Hz. apply (rising_in_spec _ _ _ due_step_sweep z Hz).
  - vm_compute. reflexivity.
  - vm_compute. reflexivity.
Qed.

Lemma potentiometer_scalers_monotone_witness :
  TeensyLogger.updateTorqueFromPot 1000 <= TeensyLogger.updateTorqueFromPot 3000
  /\ DueInteractive.updateTorqueFromPot 1000 <= DueInteractive.updateTorqueFromPot 3000.
Proof.
  destruct potentiometer_scalers_monotone as [HL [_ [_ [HD _]]]].
  split; [apply (HL 1000 3000) | apply (HD 1000 3000)]; lia.
Defined.

(** *** The bidirectional scaler *)

(** As long as the product does not leave the [int32_t] range, the command
    is the clamped quotient. *)
Lemma bidirectional_closed_form (rawPot : Z) :
  -131071 <= rawPot - 512 <= 131071 ->
  DueSender.torqueCommand rawPot
  = Z.max (-16383)
      (Z.min 16383
         (Z.quot ((if Z.abs (rawPot - 512) <=? 8 then 0 else rawPot - 512) * 16383)
                 512)).
Proof.
  intros H. unfold DueSender.torqueCommand.
  change DueSender.ANALOG_CENTER with 512.
  change DueSender.ANALOG_DEADZONE with 8.
  change DueSender.MAX_TORQUE_COMMAND with 16383.
  rewrite (to_int32_small (rawPot - 512)), abs_is_Z_abs by lia.
  set (c := if Z.abs (rawPot - 512) <=? 8 then 0 else rawPot - 512).
  assert (Hc : -131071 <= c <= 131071)
    by (subst c; destruct (Z.abs (rawPot - 512) <=? 8); lia).
  rewrite (to_int32_small (c * 16383)) by lia.
  set (q := Z.quot (c * 16383) 512).
  destruct (Z.ltb_spec 16383 q); [rewrite to_int16_small; lia |].
  destruct (Z.ltb_spec q (Z.opp 16383)); rewrite to_int16_small; lia.
Qed.

Lemma deadzone_monotone (a b : Z) :
  a <= b ->
  (if Z.abs a <=? 8 then 0 else a) <= (if Z.abs b <=? 8 then 0 else b).
Proof.
  intros H. destruct (Z.leb_spec (Z.abs a) 8), (Z.leb_spec (Z.abs b) 8); lia.
Qed.

(** The bidirectional scaler on the readings whose product stays within
    [int32_t]: it is odd about the centre 512, never decreases with the
    reading, is positive above the deadzone and negative below it, and on
    the range 0..1023 of a 10-bit converter it runs from -16383 to 16351:
    the positive cap is not reached there. *)
Theorem bidirectional_scaler_shape :
  (forall d, 0 <= d <= 131071 ->
     DueSender.torqueCommand (512 + d) = - DueSender.torqueCommand (512 - d))
  /\ (forall a b, -131071 <= a - 512 -> a <= b -> b - 512 <= 131071 ->
        DueSender.torqueCommand a <= DueSender.torqueCommand b)
  /\ (forall raw, 8 < raw - 512 <= 131071 -> 0 < DueSender.torqueCommand raw)
  /\ (forall raw, -131071 <= raw - 512 < -8 -> DueSender.torqueCommand raw < 0)
  /\ (forall raw, 0 <= raw <= 1023 ->
        -16383 <= DueSender.torqueCommand raw <= 16351).
Proof.
  assert (Hmono : forall a b, -131071 <= a - 512 -> a <= b -> b - 512 <= 131071 ->
                              DueSender.torqueCommand a <= DueSender.torqueCommand b).
  { intros a b Ha Hab Hb.
    rewrite !bidirectional_closed_form by lia.
    pose proof (deadzone_monotone (a - 512) (b - 512) ltac:(lia)) as Hdz.
    pose proof (Z.quot_le_mono _ _ 512 ltac:(lia)
                  (Z.mul_le_mono_nonneg_r _ _ 16383 ltac:(lia) Hdz)) as Hq.
    lia. }
  split; [| split; [exact Hmono | split; [| split]]].
  - intros d Hd. rewrite !bidirectional_closed_form by lia.
    replace (512 + d - 512) with d by lia.
    replace (512 - d - 512) with (- d) by lia.
    rewrite Z.abs_opp.
    destruct (Z.abs d <=? 8); [reflexivity |].
    rewrite Z.mul_opp_l, Z.quot_opp_l by lia. lia.
  - intros raw H.
    pose proof (Hmono 521 raw ltac:(lia) ltac:(lia) ltac:(lia)) as Hle.
    change (DueSender.torqueCommand 521) with 287 in Hle. lia.
  - intros raw H.
    pose proof (Hmono raw 503 ltac:(lia) ltac:(lia) ltac:(lia)) as Hle.
    change (DueSender.torqueCommand 503) with (- 287) in Hle. lia.
  - intros raw H.
    pose proof (Hmono 0 raw ltac:(lia) ltac:(lia) ltac:(lia)) as Hlo.
    pose proof (Hmono raw 1023 ltac:(lia) ltac:(lia) ltac:(lia)) as Hhi.
    change (DueSender.torqueCommand 0) with (- 16383) in Hlo.
    change (DueSender.torqueCommand 1023) with 16351 in Hhi. lia.
Qed.

Lemma bidirectional_scaler_shape_witness :
  DueSender.torqueCommand (512 + 300) = - DueSender.torqueCommand (512 - 300)
  /\ DueSender.torqueCommand 100 <= DueSender.torqueCommand 900
  /\ 0 < DueSender.torqueCommand 600.
Proof.
  destruct bidirectional_scaler_shape as [Hodd [Hmono [Hpos _]]].
  split; [apply (Hodd 300); lia |].
  split; [apply (Hmono 100 900); lia | apply (Hpos 600); lia].
Defined.

Lemma pattern_low_byte (v : Z) : (v mod 65536) mod 256 = v mod 256.
Proof.
  change 65536 with (256 * 256). rewrite Z.rem_mul_r by lia.
  rewrite (Z.mul_comm 256), Z_mod_plus_full. apply Z.mod_mod. lia.
Qed.

Lemma pattern_high_byte (v : Z) : ((v mod 65536) / 256) mod 256 = (v / 256) mod 256.
Proof.
  change 65536 with (256 * 256). rewrite Z.rem_mul_r by lia.
  rewrite (Z.mul_comm 256), Z.div_add by lia.
  rewrite (Z.div_small (v mod 256)) by (apply Z.mod_pos_bound; lia).
  rewrite Z.add_0_l. apply Z.mod_mod. lia.
Qed.

(** The torque frame of the Due potentiometer sketch, for every reading and
    whatever bytes 1 and 2 held before: it carries the command little-endian,
    and both the interpreter of the Teensy logger and the listener read it
    back, the first as the signed command, the second as the unsigned 16-bit
    pattern. *)
Theorem due_torque_frame_roundtrip (rawPot x y : Z) :
  let tq := DueSender.torqueCommand rawPot in
  let sent := wire 0x201 3 0x90 (tq mod 256) ((tq / 256) mod 256) in
  frames (snd (DueSender.sendTorqueFrame rawPot (wire 0x201 3 0x90 x y))) = [sent]
  /\ fst (DueSender.sendTorqueFrame rawPot (wire 0x201 3 0x90 x y)) = sent
  /\ TeensyLogger.interpretBamocarMessage sent = SetTorque tq
  /\ exists percent,
       Listener.interpretMessage (id sent) (len sent) (buf sent)
       = Listener.TorqueRequest (tq mod 65536) percent.
Proof.
  intros tq sent.
  assert (Hsent : fst (DueSender.sendTorqueFrame rawPot (wire 0x201 3 0x90 x y))
                  = sent).
  { unfold DueSender.sendTorqueFrame. cbn [fst].
    fold tq. unfold to_uint16. rewrite high_byte, low_byte.
    rewrite pattern_low_byte, pattern_high_byte.
    unfold set_buf, wire. cbn [id extended rtr len buf list_set].
    rewrite !byte_of_mod. reflexivity. }
  pose proof (bidirectional_clamped rawPot) as Hrange.
  change maxTorque with 16383 in Hrange. fold tq in Hrange.
  split; [| split; [exact Hsent | split]].
  - unfold DueSender.sendTorqueFrame in *. cbn [fst snd frames] in *.
    now rewrite Hsent.
  - change (TeensyLogger.interpretBamocarMessage sent)
      with (SetTorque
              (to_int16 (Z.lor (tq mod 256) (Z.shiftl ((tq / 256) mod 256) 8)))).
    rewrite bytes_recombine, to_int16_wrap by lia. reflexivity.
  - eexists.
    change (Listener.interpretMessage (id sent) (len sent) (buf sent))
      with (let rawTorque :=
              to_uint16 (Z.lor (tq mod 256) (Z.shiftl ((tq / 256) mod 256) 8)) in
            Listener.TorqueRequest rawTorque
              (F32.mul (F32.div (F32.of_Z rawTorque) Listener.lit_32768)
                       (F32.of_Z 100))).
    cbv zeta. rewrite bytes_recombine.
    rewrite (to_uint16_small (tq mod 65536)) by (apply Z.mod_pos_bound; lia).
    reflexivity.
Qed.

(** ** The headless sketch: reception, torque cadence and bring-up *)

(** Reception changes the online flag only, and only upwards. *)
Lemma headless_read_globals (queue : list Frame) :
  forall g,
    fst (TeensyHeadless.readCanMessages queue g)
    = TeensyHeadless.mkGlobals
        (TeensyHeadless.currentStep g) (TeensyHeadless.currentTorque g)
        (TeensyHeadless.lastTorqueSend g)
        (TeensyHeadless.bamocarOnline g
         || existsb TeensyHeadless.is_status queue).
Proof.
  induction queue as [| msg rest IH]; intros g.
  - destruct g. cbn. now rewrite orb_false_r.
  - cbn [TeensyHeadless.readCanMessages existsb].
    destruct (TeensyHeadless.is_status msg);
      match goal with
      | |- context [TeensyHeadless.readCanMessages rest ?g'] =>
          specialize (IH g');
          destruct (TeensyHeadless.readCanMessages rest g') as [g1 t1]
      end; cbn [fst] in *; rewrite IH; cbn; [now rewrite orb_true_r | reflexivity].
Qed.

(** One pass of the headless [loop].  In step 7, once 20 ms have passed
    since the last torque frame, a non-negative reading gives exactly one
    frame: the torque command of the reading, between 0 and the cap, in
    little-endian order; the log shows the same value; the globals record the
    command and the time.  In any other step, or earlier than 20 ms, nothing
    is sent.  The online flag rises with a STATUS reply and never falls. *)
Theorem headless_loop_pass (e : Tick) (g : TeensyHeadless.Globals) :
  let online :=
    TeensyHeadless.bamocarOnline g
    || existsb TeensyHeadless.is_status (inbox e) in
  let tq := TeensyHeadless.updateTorqueFromPot (pot e) in
  let sent := wire 0x201 3 0x90 (tq mod 256) ((tq / 256) mod 256) in
  (TeensyHeadless.currentStep g = 7 ->
   20 <= to_uint32 (now e - TeensyHeadless.lastTorqueSend g) ->
   0 <= pot e <= 2147483647 ->
   0 <= tq <= maxTorque
   /\ frames (snd (TeensyHeadless.loop e g)) = [sent]
   /\ In (Logged TX sent (SetTorque tq)) (snd (TeensyHeadless.loop e g))
   /\ fst (TeensyHeadless.loop e g)
      = TeensyHeadless.mkGlobals 7 tq (to_uint32 (now_sent e)) online)
  /\ (TeensyHeadless.currentStep g <> 7
      \/ to_uint32 (now e - TeensyHeadless.lastTorqueSend g) < 20 ->
      frames (snd (TeensyHeadless.loop e g)) = []
      /\ fst (TeensyHeadless.loop e g)
         = TeensyHeadless.mkGlobals
             (TeensyHeadless.currentStep g) (TeensyHeadless.currentTorque g)
             (TeensyHeadless.lastTorqueSend g) online).
Proof.
  intros online tq sent.
  pose proof (headless_read_globals (inbox e) g) as Hg.
  destruct (headless_read_events (inbox e) g) as (Hf & _ & _).
  unfold TeensyHeadless.loop.
  destruct (TeensyHeadless.readCanMessages (inbox e) g) as [g1 t1].
  cbn [fst snd] in Hg, Hf. subst g1. fold online.
  cbn [TeensyHeadless.currentStep TeensyHeadless.lastTorqueSend
       TeensyHeadless.currentTorque TeensyHeadless.bamocarOnline].
  split.
  - intros Hstep Hdue Hpot.
    pose proof (headless_clamped (pot e) Hpot) as Hrange. fold tq in Hrange.
    rewrite Hstep. change (7 =? 7) with true. cbn [andb].
    destruct (Z.leb_spec 20 (to_uint32 (now e - TeensyHeadless.lastTorqueSend g)));
      [| lia].
    cbn [fst snd]. fold tq.
    change maxTorque with 16383 in *.
    rewrite (headless_torque_log tq) by lia.
    rewrite (Z.mod_small tq 65536) by lia. fold sent.
    rewrite frames_app, Hf.
    repeat split; try lia; try reflexivity.
    apply in_or_app. right. right. left. reflexivity.
  - intros Hidle.
    destruct (Z.eqb_spec (TeensyHeadless.currentStep g) 7) as [Hstep | Hstep];
      cbn [andb].
    + destruct (Z.leb_spec 20 (to_uint32 (now e - TeensyHeadless.lastTorqueSend g)));
        [lia |].
      cbn [fst snd]. split; [assumption | reflexivity].
    + cbn [fst snd]. split; [assumption | reflexivity].
Qed.

Lemma headless_loop_pass_witness :
  frames (snd (TeensyHeadless.loop (mkTick false [] 2500 1000 1003)
                                   (TeensyHeadless.mkGlobals 7 0 900 true)))
  = [wire 0x201 3 0x90
       (TeensyHeadless.updateTorqueFromPot 2500 mod 256)
       ((TeensyHeadless.updateTorqueFromPot 2500 / 256) mod 256)]
  /\ frames (snd (TeensyHeadless.loop (mkTick false [] 2500 1000 1003)
                                      (TeensyHeadless.mkGlobals 7 0 990 true)))
     = [].
Proof.
  split.
  - destruct (headless_loop_pass (mkTick false [] 2500 1000 1003)
                                 (TeensyHeadless.mkGlobals 7 0 900 true))
      as [Hsend _].
    destruct Hsend as (_ & Hframes & _);
      [reflexivity | vm_compute; discriminate | cbn; lia |].
    exact Hframes.
  - destruct (headless_loop_pass (mkTick false [] 2500 1000 1003)
                                 (TeensyHeadless.mkGlobals 7 0 990 true))
      as [_ Hidle].
    destruct Hidle as [Hframes _]; [right; vm_compute; reflexivity |].
    exact Hframes.
Defined.

(** The wait sends probes only, and at least one when it is entered with
    the flag down and the deadline ahead; it leaves the step, the torque and
    the time stamp alone. *)
Lemma await_frames (w : TeensyHeadless.Bus) (startTime : Z) :
  forall fuel k clock g g' clock' t,
    TeensyHeadless.awaitOnline fuel w k startTime clock g = Some (g', clock', t) ->
    g' = TeensyHeadless.mkGlobals
           (TeensyHeadless.currentStep g) (TeensyHeadless.currentTorque g)
           (TeensyHeadless.lastTorqueSend g) (TeensyHeadless.bamocarOnline g')
    /\ exists n,
         frames t = repeat probeFrame n
         /\ (negb (TeensyHeadless.bamocarOnline g)
             && (to_uint32 (clock - startTime) <? 10000) = true -> (1 <= n)%nat).
Proof.
  induction fuel as [| fuel IH]; intros k clock g g' clock' t;
    cbn [TeensyHeadless.awaitOnline];
    destruct (negb (TeensyHeadless.bamocarOnline g)
              && (to_uint32 (clock - startTime) <? 10000)) eqn:Hcond;
    try discriminate;
    try (intros [= <- _ <-]; split;
         [destruct g; reflexivity | exists 0%nat; split; [reflexivity | discriminate]]).
  pose proof (headless_read_globals (TeensyHeadless.rx w k) g) as Hg.
  destruct (headless_read_events (TeensyHeadless.rx w k) g) as (Hf & _ & _).
  destruct (TeensyHeadless.readCanMessages (TeensyHeadless.rx w k) g) as [g1 t2].
  cbn [fst snd] in Hg, Hf.
  destruct (TeensyHeadless.awaitOnline fuel w (S k) startTime _ g1)
    as [[[g2 c2] t3] |] eqn:E; [| discriminate].
  intros [= <- _ <-].
  destruct (IH _ _ _ _ _ _ E) as (Hg2 & n & Hn & _).
  rewrite Hg in Hg2. cbn in Hg2. split; [exact Hg2 |].
  exists (S n). split; [| lia].
  cbn [frames]. rewrite !frames_app, Hf, Hn. reflexivity.
Qed.

Lemma awaitPedal_frames (pedal : nat -> Z) :
  forall fuel j potValue t,
    TeensyHeadless.awaitPedal fuel pedal j potValue = Some t -> frames t = [].
Proof.
  induction fuel as [| fuel IH]; intros j potValue t;
    cbn [TeensyHeadless.awaitPedal];
    destruct (TeensyHeadless.pedal_pressed potValue);
    try discriminate; try (intros [= <-]; reflexivity).
  destruct (TeensyHeadless.awaitPedal fuel pedal (S j) (pedal j)) as [t' |] eqn:E;
    [| discriminate].
  intros [= <-]. cbn [frames]. exact (IH _ _ _ E).
Qed.

(** Everything the headless [setup] puts on the bus, for every bus and every
    pedal.  If it gives up, it has sent the two cyclic requests of step 1 and
    at least one STATUS probe, and nothing else: no lock, enable or torque
    frame reaches a drive that never answered.  If it returns, the drive has
    answered, the same frames are followed by the eight frames of steps 2 to
    6 in order, ending with the zero torque, and the sketch is in step 7 with
    the torque command 0. *)
Theorem headless_setup_bus_output (fuel : nat) (w : TeensyHeadless.Bus)
        (pedal : nat -> Z) (startTime : Z) :
  match TeensyHeadless.setup fuel w pedal startTime with
  | TeensyHeadless.Aborted g t =>
      TeensyHeadless.bamocarOnline g = false
      /\ exists n, (1 <= n)%nat
                   /\ frames t = heartbeatFrames ++ repeat probeFrame n
  | TeensyHeadless.Ready g t =>
      g = TeensyHeadless.mkGlobals 7 0 0 true
      /\ exists n, (1 <= n)%nat
                   /\ frames t = heartbeatFrames ++ repeat probeFrame n
                                 ++ bringUpFrames
  | TeensyHeadless.Waiting => True
  end.
Proof.
  unfold TeensyHeadless.setup.
  change (TeensyHeadless.executeStep 1 TeensyHeadless.initial)
    with (TeensyHeadless.mkGlobals 1 0 0 false,
          snd (TeensyHeadless.executeStep 1 TeensyHeadless.initial)).
  cbv iota beta.
  destruct (TeensyHeadless.awaitOnline fuel w 0 startTime startTime _)
    as [[[g c] t2] |] eqn:E; [| exact I].
  destruct (await_frames _ _ _ _ _ _ _ _ _ E) as (Hg & n & Hn & Hone).
  cbn [TeensyHeadless.currentStep TeensyHeadless.currentTorque
       TeensyHeadless.lastTorqueSend TeensyHeadless.bamocarOnline negb andb]
    in Hg, Hone.
  rewrite Z.sub_diag in Hone. specialize (Hone eq_refl).
  destruct (TeensyHeadless.bamocarOnline g) eqn:Hon; cbn [negb].
  - unfold TeensyHeadless.run. cbn [TeensyHeadless.executeStep].
    destruct (TeensyHeadless.awaitPedal fuel pedal 10 _) as [t4 |] eqn:Ep;
      [| exact I].
    apply awaitPedal_frames in Ep.
    split; [subst g; reflexivity |].
    exists n. split; [assumption |].
    rewrite !frames_app, Hn, Ep. rewrite <- !app_assoc. reflexivity.
  - split; [assumption |].
    exists n. split; [assumption |].
    rewrite !frames_app, Hn. rewrite <- !app_assoc.
    cbn [frames]. rewrite app_nil_r. reflexivity.
Qed.

(** The pedal gate before step 7 returns after [n] polls exactly when the
    reading it holds then is at rest and every reading before was pressed:
    with that sequence of readings and fuel for [n] polls it does return,
    after [n] pauses of 50 ms in which nothing is sent, and whenever it
    returns the readings were of that kind.  While the pedal stays pressed
    it never returns, whatever the fuel. *)
Theorem awaitPedal_returns_at_rest (pedal : nat -> Z) :
  (forall fuel j potValue n,
     (n <= fuel)%nat ->
     TeensyHeadless.pedal_pressed
       (match n with O => potValue | S m => pedal (j + m)%nat end) = false ->
     (n <> 0%nat -> TeensyHeadless.pedal_pressed potValue = true) ->
     (forall m, (S m < n)%nat ->
        TeensyHeadless.pedal_pressed (pedal (j + m)%nat) = true) ->
     TeensyHeadless.awaitPedal fuel pedal j potValue
     = Some (repeat (Delay 50) n))
  /\ (forall fuel j potValue t,
        TeensyHeadless.awaitPedal fuel pedal j potValue = Some t ->
        exists n,
          (n <= fuel)%nat
          /\ t = repeat (Delay 50) n
          /\ TeensyHeadless.pedal_pressed
               (match n with O => potValue | S m => pedal (j + m)%nat end) = false
          /\ (n <> 0%nat -> TeensyHeadless.pedal_pressed potValue = true)
          /\ (forall m, (S m < n)%nat ->
                TeensyHeadless.pedal_pressed (pedal (j + m)%nat) = true))
  /\ (forall fuel j potValue,
        TeensyHeadless.pedal_pressed potValue = true ->
        (forall m, TeensyHeadless.pedal_pressed (pedal (j + m)%nat) = true) ->
        TeensyHeadless.awaitPedal fuel pedal j potValue = None).
Proof.
  split; [| split].
  - induction fuel as [| fuel IH]; intros j potValue n Hn Hrest Hfirst Hbefore.
    + assert (n = 0%nat) by lia. subst n.
      cbn [TeensyHeadless.awaitPedal]. rewrite Hrest. reflexivity.
    + cbn [TeensyHeadless.awaitPedal].
      destruct n as [| n]; [rewrite Hrest; reflexivity |].
      rewrite Hfirst by discriminate.
      rewrite (IH (S j) (pedal j) n); [reflexivity | lia | | |].
      * destruct n as [| m]; [rewrite Nat.add_0_r in Hrest; exact Hrest |].
        rewrite Nat.add_succ_r in Hrest. exact Hrest.
      * intros Hn0. specialize (Hbefore 0%nat).
        rewrite Nat.add_0_r in Hbefore. apply Hbefore. lia.
      * intros m Hm. specialize (Hbefore (S m)).
        rewrite Nat.add_succ_r in Hbefore. apply Hbefore. lia.
  - induction fuel as [| fuel IH]; intros j potValue t;
      cbn [TeensyHeadless.awaitPedal];
      destruct (TeensyHeadless.pedal_pressed potValue) eqn:Hp;
      try discriminate;
      try (intros [= <-]; exists 0%nat;
           split; [lia | split; [reflexivity | split; [assumption | split;
             [intros H; now elim H | intros m Hm; lia]]]]).
    destruct (TeensyHeadless.awaitPedal fuel pedal (S j) (pedal j)) as [t' |] eqn:E;
      [| discriminate].
    intros [= <-].
    destruct (IH _ _ _ E) as (n & Hn & -> & Hrest & Hfirst & Hbefore).
    exists (S n). split; [lia | split; [reflexivity | split; [| split]]].
    + destruct n as [| m]; [rewrite Nat.add_0_r; exact Hrest |].
      rewrite Nat.add_succ_r. exact Hrest.
    + intros _. reflexivity.
    + intros m Hm. destruct m as [| m].
      * rewrite Nat.add_0_r. apply Hfirst. lia.
      * rewrite Nat.add_succ_r. apply (Hbefore m). lia.
  - induction fuel as [| fuel IH]; intros j potValue Hp Hall;
      cbn [TeensyHeadless.awaitPedal]; rewrite Hp; [reflexivity |].
    rewrite IH; [reflexivity | |].
    + specialize (Hall 0%nat). now rewrite Nat.add_0_r in Hall.
    + intros m. specialize (Hall (S m)). now rewrite Nat.add_succ_r in Hall.
Qed.

Lemma awaitPedal_returns_at_rest_witness :
  TeensyHeadless.awaitPedal 5
    (fun k => if (k <? 12)%nat then 2000 else 2930) 10%nat 2000
  = Some (repeat (Delay 50) 3).
Proof.
  destruct (awaitPedal_returns_at_rest
              (fun k => if (k <? 12)%nat then 2000 else 2930)) as [Hret _].
  apply (Hret 5%nat 10%nat 2000 3%nat).
  - lia.
  - vm_compute. reflexivity.
  - intros _. vm_compute. reflexivity.
  - intros m Hm. destruct m as [| [| m]]; [vm_compute; reflexivity .. | lia].
Defined.

(** ** The listener *)

(** What [interpretMessage] reports: a frame without data is a remote
    frame whatever its identifier; another identifier than 0x201 is passed
    over in silence; a command of one or two bytes is too short; a torque
    command is read as the unsigned little-endian value of bytes 1 and 2; any
    other register is listed with the data bytes that follow it. *)
Theorem listener_classification :
  (forall ident data, Listener.interpretMessage ident 0 data = Listener.RemoteFrame)
  /\ (forall ident dlc data,
        dlc <> 0 -> ident <> 0x201 ->
        Listener.interpretMessage ident dlc data = Listener.Silent)
  /\ (forall dlc data,
        0 < dlc < 3 ->
        Listener.interpretMessage 0x201 dlc data = Listener.PayloadTooShort)
  /\ (forall dlc b1 b2 rest,
        3 <= dlc -> 0 <= b1 < 256 -> 0 <= b2 < 256 ->
        exists percent,
          Listener.interpretMessage 0x201 dlc (0x90 :: b1 :: b2 :: rest)
          = Listener.TorqueRequest (b1 + 256 * b2) percent)
  /\ (forall dlc reg rest,
        3 <= dlc -> reg <> 0x90 ->
        Listener.interpretMessage 0x201 dlc (reg :: rest)
        = Listener.CommandData reg (firstn (Z.to_nat dlc - 1) rest)).
Proof.
  split; [reflexivity |].
  split.
  { intros ident dlc data Hd Hi. unfold Listener.interpretMessage.
    destruct (Z.eqb_spec dlc 0); [contradiction |].
    destruct (Z.eqb_spec ident 0x201); [contradiction | reflexivity]. }
  split; [exact listener_rejects_short |].
  split.
  { intros dlc b1 b2 rest Hd H1 H2. eexists.
    unfold Listener.interpretMessage.
    destruct (Z.eqb_spec dlc 0); [lia |].
    change (0x201 =? 0x201) with true. cbv iota.
    destruct (Z.ltb_spec dlc 3); [lia |].
    cbn [nth]. change (0x90 =? 0x90) with true. cbv iota.
    rewrite lor_shiftl_8, to_uint16_small by lia. reflexivity. }
  intros dlc reg rest Hd Hreg. unfold Listener.interpretMessage.
  destruct (Z.eqb_spec dlc 0); [lia |].
  change (0x201 =? 0x201) with true. cbv iota.
  destruct (Z.ltb_spec dlc 3); [lia |].
  cbn [nth]. destruct (Z.eqb_spec reg 0x90); [contradiction |].
  destruct (Z.to_nat dlc) as [| m] eqn:E; [lia |].
  cbn [firstn skipn]. rewrite Nat.sub_succ, Nat.sub_0_r. reflexivity.
Qed.

Lemma listener_classification_witness :
  Listener.interpretMessage 0x181 3 [0x40; 0x01; 0x00] = Listener.Silent
  /\ Listener.interpretMessage 0x201 2 [0x90; 0x10] = Listener.PayloadTooShort
  /\ Listener.interpretMessage 0x201 3 [0x51; 0x04; 0x00]
     = Listener.CommandData 0x51 (firstn (Z.to_nat 3 - 1) [0x04; 0x00]).
Proof.
  destruct listener_classification as [_ [Hsilent [Hshort [_ Hother]]]].
  split; [apply (Hsilent 0x181 3); lia |].
  split; [apply (Hshort 2); lia | apply (Hother 3 0x51); lia].
Defined.

(** *** Statistics per identifier *)

Lemma lookup_cons (ident : Z) (entry : ListenerStats.MessageStats)
      (rest : ListenerStats.Table) :
  ListenerStats.lookup ident (entry :: rest)
  = if ListenerStats.stat_id entry =? ident
    then Some (ListenerStats.count entry)
    else ListenerStats.lookup ident rest.
Proof.
  unfold ListenerStats.lookup. cbn [find].
  destruct (ListenerStats.stat_id entry =? ident); reflexivity.
Qed.

Lemma lookup_none (ident : Z) (t : ListenerStats.Table) :
  ListenerStats.lookup ident t = None <-> ~ In ident (ListenerStats.ids_of t).
Proof.
  induction t as [| entry rest IH].
  - split; [intros _ [] | reflexivity].
  - rewrite lookup_cons. cbn [ListenerStats.ids_of map In].
    fold (ListenerStats.ids_of rest).
    destruct (Z.eqb_spec (ListenerStats.stat_id entry) ident) as [He | He].
    + split; [discriminate | intros H; exfalso; apply H; now left].
    + rewrite IH. split; [intros H [Hh | Ht]; contradiction |].
      intros H Ht. apply H. now right.
Qed.

(** The first loop of [updateMessageStats]. *)
Lemma bump_spec (ident now : Z) (t : ListenerStats.Table) :
  match ListenerStats.bump ident now t with
  | Some t' =>
      ListenerStats.ids_of t' = ListenerStats.ids_of t
      /\ (exists c, ListenerStats.lookup ident t = Some c
                    /\ ListenerStats.lookup ident t' = Some (to_uint32 (c + 1)))
      /\ (forall other, other <> ident ->
            ListenerStats.lookup other t' = ListenerStats.lookup other t)
  | None => ListenerStats.lookup ident t = None
  end.
Proof.
  induction t as [| entry rest IH]; [reflexivity |].
  cbn [ListenerStats.bump].
  destruct (Z.eqb_spec (ListenerStats.stat_id entry) ident) as [He | He].
  - split; [reflexivity | split].
    + exists (ListenerStats.count entry). rewrite !lookup_cons.
      cbn [ListenerStats.stat_id ListenerStats.count].
      rewrite He, Z.eqb_refl. split; reflexivity.
    + intros other Ho. rewrite !lookup_cons. cbn [ListenerStats.stat_id].
      destruct (Z.eqb_spec (ListenerStats.stat_id entry) other); [congruence |].
      reflexivity.
  - destruct (ListenerStats.bump ident now rest) as [rest' |].
    + destruct IH as (Hids & (c & Hc & Hc') & Hother).
      split; [| split].
      * cbn [ListenerStats.ids_of map]. f_equal. exact Hids.
      * exists c. rewrite !lookup_cons.
        destruct (Z.eqb_spec (ListenerStats.stat_id entry) ident); [contradiction |].
        split; assumption.
      * intros other Ho. rewrite !lookup_cons.
        destruct (ListenerStats.stat_id entry =? other); [reflexivity |].
        now apply Hother.
    + rewrite lookup_cons.
      destruct (Z.eqb_spec (ListenerStats.stat_id entry) ident); [contradiction |].
      exact IH.
Qed.

Lemma lookup_app_new (ident other now : Z) (t : ListenerStats.Table) :
  ListenerStats.lookup other (t ++ [ListenerStats.mkStats ident 1 now])
  = match ListenerStats.lookup other t with
    | Some c => Some c
    | None => if ident =? other then Some 1 else None
    end.
Proof.
  induction t as [| entry rest IH].
  - cbn [app]. rewrite lookup_cons. reflexivity.
  - cbn [app]. rewrite !lookup_cons.
    destruct (ListenerStats.stat_id entry =? other); [reflexivity | exact IH].
Qed.

Lemma update_step_invariant (ident now : Z) (t : ListenerStats.Table) :
  NoDup (ListenerStats.ids_of t) ->
  Z.of_nat (List.length t) <= ListenerStats.CAPACITY ->
  let t' := ListenerStats.updateMessageStats ident now t in
  NoDup (ListenerStats.ids_of t')
  /\ Z.of_nat (List.length t) <= Z.of_nat (List.length t') <= ListenerStats.CAPACITY
  /\ (forall other, other <> ident ->
        ListenerStats.lookup other t' = ListenerStats.lookup other t)
  /\ match ListenerStats.lookup ident t with
     | Some c => ListenerStats.lookup ident t' = Some (to_uint32 (c + 1))
     | None =>
         if Z.of_nat (List.length t) <? ListenerStats.CAPACITY
         then ListenerStats.lookup ident t' = Some 1
         else t' = t
     end.
Proof.
  intros Hnodup Hlen t'. subst t'. unfold ListenerStats.updateMessageStats.
  pose proof (bump_spec ident now t) as Hb.
  destruct (ListenerStats.bump ident now t) as [t1 |].
  - destruct Hb as (Hids & (c & Hc & Hc') & Hother).
    rewrite Hids, Hc.
    assert (Hl : List.length t1 = List.length t).
    { rewrite <- (length_map ListenerStats.stat_id t1),
        <- (length_map ListenerStats.stat_id t).
      fold (ListenerStats.ids_of t1). fold (ListenerStats.ids_of t).
      now rewrite Hids. }
    rewrite Hl. repeat split; try assumption; lia.
  - rewrite Hb.
    destruct (Z.ltb_spec (Z.of_nat (List.length t)) ListenerStats.CAPACITY)
      as [Hroom | Hfull].
    + unfold ListenerStats.ids_of. rewrite map_app, length_app.
      cbn [map List.length ListenerStats.stat_id].
      repeat split; try lia.
      * apply NoDup_app; [assumption | repeat constructor; intros [] | ].
        intros x Hx [<- | []]. apply lookup_none in Hb. contradiction.
      * intros other Ho. rewrite lookup_app_new.
        destruct (ListenerStats.lookup other t); [reflexivity |].
        destruct (Z.eqb_spec ident other); [congruence | reflexivity].
      * rewrite lookup_app_new, Hb, Z.eqb_refl. reflexivity.
    + repeat split; try assumption; try lia; reflexivity.
Qed.

(** One call of [updateMessageStats] on a table without repeated
    identifiers and of at most 16 entries: the table keeps both properties
    and never shrinks; the counts of the other identifiers are untouched; a
    tracked identifier is counted once more (modulo 2^32); a new identifier
    enters with the count 1 while there is room, and is dropped, leaving the
    table as it was, when all 16 entries are taken. *)
Theorem updateMessageStats_step (ident now : Z) (t : ListenerStats.Table) :
  NoDup (ListenerStats.ids_of t) ->
  Z.of_nat (List.length t) <= ListenerStats.CAPACITY ->
  let t' := ListenerStats.updateMessageStats ident now t in
  NoDup (ListenerStats.ids_of t')
  /\ Z.of_nat (List.length t) <= Z.of_nat (List.length t') <= ListenerStats.CAPACITY
  /\ (forall other, other <> ident ->
        ListenerStats.lookup other t' = ListenerStats.lookup other t)
  /\ match ListenerStats.lookup ident t with
     | Some c => ListenerStats.lookup ident t' = Some (to_uint32 (c + 1))
     | None =>
         if Z.of_nat (List.length t) <? ListenerStats.CAPACITY
         then ListenerStats.lookup ident t' = Some 1
         else t' = t
     end.
Proof. exact (update_step_invariant ident now t). Qed.

Lemma updateMessageStats_step_witness :
  NoDup (ListenerStats.ids_of
           (ListenerStats.updateMessageStats 0x201 50
              [ListenerStats.mkStats 0x181 4 10; ListenerStats.mkStats 0x201 7 20]))
  /\ ListenerStats.lookup 0x201
       (ListenerStats.updateMessageStats 0x201 50
          [ListenerStats.mkStats 0x181 4 10; ListenerStats.mkStats 0x201 7 20])
     = Some (to_uint32 (7 + 1)).
Proof.
  destruct (updateMessageStats_step 0x201 50
              [ListenerStats.mkStats 0x181 4 10; ListenerStats.mkStats 0x201 7 20])
    as (Hnodup & _ & _ & Hcount).
  - repeat constructor; cbn; intuition lia.
  - cbn. unfold ListenerStats.CAPACITY. lia.
  - split; [exact Hnodup | exact Hcount].
Defined.

Lemma update_full_table (ident now : Z) (t : ListenerStats.Table) :
  ListenerStats.CAPACITY <= Z.of_nat (List.length t) ->
  ListenerStats.ids_of (ListenerStats.updateMessageStats ident now t)
  = ListenerStats.ids_of t
  /\ List.length (ListenerStats.updateMessageStats ident now t) = List.length t.
Proof.
  intros Hfull. unfold ListenerStats.updateMessageStats.
  pose proof (bump_spec ident now t) as Hb.
  destruct (ListenerStats.bump ident now t) as [t1 |].
  - destruct Hb as (Hids & _). split; [exact Hids |].
    rewrite <- (length_map ListenerStats.stat_id t1),
      <- (length_map ListenerStats.stat_id t).
    fold (ListenerStats.ids_of t1). fold (ListenerStats.ids_of t).
    now rewrite Hids.
  - destruct (Z.ltb_spec (Z.of_nat (List.length t)) ListenerStats.CAPACITY);
      [lia | split; reflexivity].
Qed.

Lemma receive_full_table (ids : list Z) (clock : nat -> Z) :
  forall k t,
    ListenerStats.CAPACITY <= Z.of_nat (List.length t) ->
    ListenerStats.ids_of (ListenerStats.receive ids clock k t)
    = ListenerStats.ids_of t.
Proof.
  induction ids as [| x rest IH]; intros k t Hfull; [reflexivity |].
  cbn [ListenerStats.receive].
  destruct (update_full_table x (clock k) t Hfull) as [Hids Hlen].
  rewrite IH by (rewrite Hlen; exact Hfull). exact Hids.
Qed.

Lemma update_ids_incl (ident now i : Z) (t : ListenerStats.Table) :
  In i (ListenerStats.ids_of (ListenerStats.updateMessageStats ident now t)) ->
  i = ident \/ In i (ListenerStats.ids_of t).
Proof.
  unfold ListenerStats.updateMessageStats.
  pose proof (bump_spec ident now t) as Hb.
  destruct (ListenerStats.bump ident now t) as [t1 |].
  - destruct Hb as (Hids & _). rewrite Hids. now right.
  - destruct (Z.of_nat (List.length t) <? ListenerStats.CAPACITY); [| now right].
    unfold ListenerStats.ids_of. rewrite map_app. intros H.
    apply in_app_or in H as [H | [H | []]]; [now right | left; now symmetry].
Qed.

Lemma receive_invariant (ids : list Z) (clock : nat -> Z) :
  forall k t,
    NoDup (ListenerStats.ids_of t) ->
    Z.of_nat (List.length t) <= ListenerStats.CAPACITY ->
    NoDup (ListenerStats.ids_of (ListenerStats.receive ids clock k t))
    /\ Z.of_nat (List.length (ListenerStats.receive ids clock k t))
       <= ListenerStats.CAPACITY
    /\ (forall i, In i (ListenerStats.ids_of (ListenerStats.receive ids clock k t)) ->
                  In i ids \/ In i (ListenerStats.ids_of t))
    /\ forall ident c,
         ListenerStats.lookup ident (ListenerStats.receive ids clock k t) = Some c ->
         let base := match ListenerStats.lookup ident t with
                     | Some c0 => c0
                     | None => 0
                     end in
         c = match count_occ Z.eq_dec ids ident with
             | O => base
             | S _ => to_uint32 (base + Z.of_nat (count_occ Z.eq_dec ids ident))
             end.
Proof.
  induction ids as [| x rest IH]; intros k t Hnodup Hlen.
  - cbn [ListenerStats.receive count_occ].
    split; [assumption | split; [assumption | split; [now right |]]].
    intros ident c Hc. now rewrite Hc.
  - cbn [ListenerStats.receive].
    destruct (update_step_invariant x (clock k) t Hnodup Hlen)
      as (Hnodup1 & Hlen1 & Hother & Hx).
    destruct (IH (S k) _ Hnodup1 (proj2 Hlen1)) as (Hn & Hl & Hin & Hcount).
    split; [assumption | split; [assumption | split]].
    + intros i Hi. apply Hin in Hi as [Hi | Hi]; [left; now right |].
      apply update_ids_incl in Hi as [-> | Hi]; [left; now left | now right].
    + intros ident c Hc. specialize (Hcount ident c Hc). cbv zeta in Hcount.
      cbn [count_occ]. destruct (Z.eq_dec x ident) as [-> | Hne].
      * destruct (ListenerStats.lookup ident t) as [c0 |] eqn:E0.
        -- rewrite Hx in Hcount.
           destruct (count_occ Z.eq_dec rest ident) as [| m];
             [rewrite Hcount; f_equal; lia |].
           rewrite Hcount. unfold to_uint32.
           rewrite Zplus_mod_idemp_l. f_equal. lia.
        -- destruct (Z.ltb_spec (Z.of_nat (List.length t)) ListenerStats.CAPACITY)
             as [Hroom | Hfull].
           ++ rewrite Hx in Hcount.
              destruct (count_occ Z.eq_dec rest ident) as [| m];
                [rewrite Hcount; reflexivity |].
              rewrite Hcount. f_equal. lia.
           ++ exfalso.
              assert (Hnone : ListenerStats.lookup ident
                                (ListenerStats.receive rest clock (S k)
                                   (ListenerStats.updateMessageStats ident (clock k) t))
                              = None).
              { apply lookup_none. rewrite Hx.
                rewrite receive_full_table by assumption.
                now apply lookup_none. }
              congruence.
      * rewrite (Hother ident) in Hcount by congruence. exact Hcount.
Qed.

(** The statistics after any sequence of received identifiers, starting
    from the empty table: no identifier is tracked twice, at most 16 are
    tracked, every tracked identifier was received, and its count is the
    number of times it was received (modulo 2^32). *)
Theorem listener_statistics_count (ids : list Z) (clock : nat -> Z) :
  let t := ListenerStats.receive ids clock 0 [] in
  NoDup (ListenerStats.ids_of t)
  /\ (List.length t <= 16)%nat
  /\ (forall i, In i (ListenerStats.ids_of t) -> In i ids)
  /\ (forall ident c,
        ListenerStats.lookup ident t = Some c ->
        c = to_uint32 (Z.of_nat (count_occ Z.eq_dec ids ident))).
Proof.
  intros t. subst t.
  destruct (receive_invariant ids clock 0 []) as (Hn & Hl & Hin & Hcount);
    [constructor | cbn; unfold ListenerStats.CAPACITY; lia |].
  unfold ListenerStats.CAPACITY in Hl.
  split; [assumption | split; [lia | split]].
  - intros i Hi. apply Hin in Hi as [Hi | []]. exact Hi.
  - intros ident c Hc. specialize (Hcount ident c Hc). cbn in Hcount.
    destruct (count_occ Z.eq_dec ids ident); [subst c; reflexivity |].
    exact Hcount.
Qed.

Lemma listener_statistics_count_witness :
  3 = to_uint32
        (Z.of_nat (count_occ Z.eq_dec [0x201; 0x181; 0x201; 0x201] 0x201)).
Proof.
  destruct (listener_statistics_count [0x201; 0x181; 0x201; 0x201]
                                      (fun k => Z.of_nat k)) as (_ & _ & _ & Hcount).
  apply (Hcount 0x201 3). reflexivity.
Defined.

(** ** Log file name *)

Lemma search_sound (present : Z -> bool) :
  forall fuel index i,
    LogFile.search fuel present index = Some i ->
    index <= i < index + Z.of_nat fuel
    /\ present i = false
    /\ forall j, index <= j < i -> present j = true.
Proof.
  induction fuel as [| fuel IH]; intros index i; cbn [LogFile.search];
    [discriminate |].
  destruct (present index) eqn:Hp.
  - intros H. destruct (IH _ _ H) as (Hrange & Hfree & Hbelow).
    split; [lia | split; [assumption |]].
    intros j Hj. destruct (Z.eq_dec j index) as [-> | Hne]; [assumption |].
    apply Hbelow. lia.
  - intros [= <-]. split; [lia | split; [assumption |]]. intros j Hj. lia.
Qed.

Lemma search_complete (present : Z -> bool) :
  forall fuel index k,
    index <= k < index + Z.of_nat fuel -> present k = false ->
    exists i, LogFile.search fuel present index = Some i /\ i <= k.
Proof.
  induction fuel as [| fuel IH]; intros index k Hk Hfree; [lia |].
  cbn [LogFile.search]. destruct (present index) eqn:Hp.
  - destruct (Z.eq_dec k index) as [-> | Hne]; [congruence |].
    apply IH; [lia | assumption].
  - exists index. split; [reflexivity | lia].
Qed.

(** [generateFilename] returns the name of the least index, from 1 on,
    whose file is not on the card: it never returns the name of an existing
    file, and it skips no free name.  It finds the name within as many passes
    as the index of any free name; when every name is taken it does not
    return. *)
Theorem generateFilename_least_free (present : Z -> bool) :
  (forall fuel i,
     LogFile.generateFilename fuel present = Some i ->
     1 <= i /\ present i = false /\ forall j, 1 <= j < i -> present j = true)
  /\ (forall fuel k,
        1 <= k <= Z.of_nat fuel -> present k = false ->
        exists i, LogFile.generateFilename fuel present = Some i /\ i <= k)
  /\ ((forall j, 1 <= j -> present j = true) ->
      forall fuel, LogFile.generateFilename fuel present = None).
Proof.
  unfold LogFile.generateFilename. split; [| split].
  - intros fuel i H. destruct (search_sound present _ _ _ H) as (Hr & Hf & Hb).
    split; [lia | split; assumption].
  - intros fuel k Hk Hfree. apply search_complete; [lia | assumption].
  - intros Hall fuel.
    destruct (LogFile.search fuel present 1) as [i |] eqn:E; [| reflexivity].
    destruct (search_sound present _ _ _ E) as (Hr & Hf & _).
    rewrite Hall in Hf by lia. discriminate.
Qed.

Lemma generateFilename_least_free_witness :
  exists i, LogFile.generateFilename 10 (fun j => j <? 4) = Some i /\ i <= 6.
Proof.
  destruct (generateFilename_least_free (fun j => j <? 4)) as [_ [Hfind _]].
  apply (Hfind 10%nat 6); [cbn; lia | reflexivity].
Defined.

(** ** Step counters and the torque cadence of the key-driven sketches *)

Lemma due_executeStep_keeps_globals (step : Z) (g : DueInteractive.Globals) :
  DueInteractive.currentStep (fst (DueInteractive.executeStep step g))
  = DueInteractive.currentStep g.
Proof.
  destruct step as [| p | p]; try reflexivity.
  do 3 (destruct p as [p | p |]; try reflexivity).
Qed.

(** The step counters after [n] key presses from reset: [n] in the logger
    sketch as long as the [int] holds it, and [n] modulo 256 in the Due
    interactive sketch, whose counter is a [uint8_t]. *)
Theorem step_counters (n : nat) :
  (Z.of_nat n <= 2147483647 ->
   TeensyLogger.currentStep (fst (logger_presses n TeensyLogger.initial))
   = Z.of_nat n)
  /\ DueInteractive.currentStep (fst (due_presses n DueInteractive.initial))
     = Z.of_nat n mod 256.
Proof.
  split.
  - induction n as [| n IH]; intros Hmax; [reflexivity |].
    cbn [logger_presses]. unfold TeensyLogger.handleSerialInput.
    cbn [fst TeensyLogger.currentStep].
    rewrite IH, to_int32_small by lia. lia.
  - induction n as [| n IH]; [reflexivity |].
    cbn [due_presses]. unfold DueInteractive.handleSerialInput.
    rewrite due_executeStep_keeps_globals. cbn [DueInteractive.currentStep].
    rewrite IH. unfold to_uint8.
    rewrite Zplus_mod_idemp_l. f_equal. lia.
Qed.

Lemma step_counters_witness :
  TeensyLogger.currentStep (fst (logger_presses 12 TeensyLogger.initial)) = 12.
Proof.
  destruct (step_counters 12) as [Hlogger _].
  apply Hlogger. cbn. lia.
Defined.

Lemma logger_sequence_terminal_witness :
  logger_presses 13 (TeensyLogger.mkGlobals 9 0 0)
  = (TeensyLogger.mkGlobals (9 + Z.of_nat 13) 0 0,
     [Serial "All steps complete." []]).
Proof.
  apply (logger_sequence_terminal 12 (TeensyLogger.mkGlobals 9 0 0));
    [reflexivity | cbn; lia].
Defined.

Lemma logger_loop_past_last_step_witness :
  frames (snd (TeensyLogger.loop (mkTick true [wire 0x181 3 0x40 0x01 0x00] 2000 500 501)
                                 (TeensyLogger.mkGlobals 9 0 0))) = [].
Proof.
  apply (logger_loop_past_last_step
           (mkTick true [wire 0x181 3 0x40 0x01 0x00] 2000 500 501)
           (TeensyLogger.mkGlobals 9 0 0)).
  cbn. lia.
Defined.

Lemma due_loop_past_last_step_witness :
  frames (snd (DueInteractive.loop (mkTick true [] 2000 500 501)
                                   (DueInteractive.mkGlobals 6 0 0))) = [].
Proof.
  apply (due_loop_past_last_step (mkTick true [] 2000 500 501)
                                 (DueInteractive.mkGlobals 6 0 0)).
  cbn. lia.
Defined.

(** The torque cadence of the logger sketch in step 7, with no key pressed.
    [d] is the time since the last torque frame; [millis()] may have wrapped
    around 2^32 in between.  From 20 ms on, the pass sends exactly one torque
    frame and records the reading's command and the time; before, it sends
    nothing and leaves the globals alone. *)
Theorem logger_torque_cadence (e : Tick) (g : TeensyLogger.Globals) (d : Z) :
  key e = false ->
  TeensyLogger.currentStep g = 7 ->
  0 <= TeensyLogger.lastTorqueSend g < 4294967296 ->
  0 <= d < 4294967296 ->
  now e = (TeensyLogger.lastTorqueSend g + d) mod 4294967296 ->
  (20 <= d ->
   (exists b1 b2, frames (snd (TeensyLogger.loop e g)) = [wire 0x201 3 0x90 b1 b2])
   /\ fst (TeensyLogger.loop e g)
      = TeensyLogger.mkGlobals 7 (TeensyLogger.updateTorqueFromPot (pot e))
                               (to_uint32 (now_sent e)))
  /\ (d < 20 ->
      frames (snd (TeensyLogger.loop e g)) = [] /\ fst (TeensyLogger.loop e g) = g).
Proof.
  intros Hkey Hstep Hlast Hd Hnow.
  assert (Helapsed : to_uint32 (now e - TeensyLogger.lastTorqueSend g) = d).
  { rewrite Hnow. unfold to_uint32. rewrite Zminus_mod_idemp_l.
    replace (TeensyLogger.lastTorqueSend g + d - TeensyLogger.lastTorqueSend g)
      with d by lia.
    now apply Z.mod_small. }
  unfold TeensyLogger.loop. rewrite Hkey.
  cbn [TeensyLogger.handleSerialInput]. rewrite Hstep, Helapsed.
  change (7 =? 7) with true. cbn [andb app].
  split; intros Hcase.
  - destruct (Z.leb_spec 20 d); [| lia]. cbn [fst snd]. split; [| reflexivity].
    rewrite !frames_app, logger_read_sends_nothing.
    unfold TeensyLogger.sendTorqueCommand, TeensyLogger.sendCAN.
    rewrite logger_command_bytes. cbn [frames app TeensyLogger.logCANFrame].
    change (to_uint8 0x90) with 0x90. eexists. eexists. reflexivity.
  - destruct (Z.leb_spec 20 d); [lia |]. cbn [fst snd].
    split; [apply logger_read_sends_nothing | reflexivity].
Qed.

Lemma logger_torque_cadence_witness :
  exists b1 b2,
    frames (snd (TeensyLogger.loop (mkTick false [] 2048 19 21)
                                   (TeensyLogger.mkGlobals 7 0 4294967290)))
    = [wire 0x201 3 0x90 b1 b2].
Proof.
  destruct (logger_torque_cadence (mkTick false [] 2048 19 21)
                                  (TeensyLogger.mkGlobals 7 0 4294967290) 25)
    as [Hsend _]; [reflexivity | reflexivity | cbn; lia | lia | reflexivity |].
  destruct Hsend as [Hframes _]; [lia |]. exact Hframes.
Defined.

(** ** The Due sender sketch *)

(** One pass of [loop] of the potentiometer sketch.  If an 's' or an 'S' is
    among the waiting characters, wherever it stands, the pass sends Lock and
    Enable and no torque frame, spends 4100 ms in [delay] and leaves the
    torque frame as it was.  Otherwise it sends exactly one frame, the torque
    frame, and pauses 10 ms. *)
Theorem due_sender_pass (chars : list Z) (rawPot : Z) (frame : Frame) :
  (In 115 chars \/ In 83 chars ->
   DueSender.loop chars rawPot frame = (frame, DueSender.enableSequence)
   /\ frames DueSender.enableSequence = [lockCommand; enableCommand]
   /\ delayed DueSender.enableSequence = 4100)
  /\ (~ In 115 chars -> ~ In 83 chars ->
      frames (snd (DueSender.loop chars rawPot frame))
      = [fst (DueSender.sendTorqueFrame rawPot frame)]
      /\ fst (DueSender.loop chars rawPot frame)
         = fst (DueSender.sendTorqueFrame rawPot frame)
      /\ delayed (snd (DueSender.loop chars rawPot frame)) = 10).
Proof.
  unfold DueSender.loop, DueSender.triggered. split.
  - intros Hin.
    assert (Ht : existsb (fun c => (c =? 115) || (c =? 83)) chars = true).
    { apply existsb_exists. destruct Hin as [H | H];
        [exists 115 | exists 83]; split; try assumption; reflexivity. }
    rewrite Ht. repeat split.
  - intros Hs HS.
    assert (Ht : existsb (fun c => (c =? 115) || (c =? 83)) chars = false).
    { destruct (existsb _ chars) eqn:E; [| reflexivity].
      apply existsb_exists in E as (c & Hc & Hm).
      apply orb_true_iff in Hm as [Hm | Hm]; apply Z.eqb_eq in Hm; subst c;
        contradiction. }
    rewrite Ht. repeat split.
Qed.

Lemma due_sender_pass_witness :
  DueSender.loop [104; 83; 10] 700 DueSender.torqueFrame
  = (DueSender.torqueFrame, DueSender.enableSequence).
Proof.
  destruct (due_sender_pass [104; 83; 10] 700 DueSender.torqueFrame) as [Hs _].
  destruct Hs as [Hloop _]; [right; cbn; lia |]. exact Hloop.
Defined.
